(** * runner/worker.go: the request-issuing worker of the load generator

    A shallow embedding of [Worker] and its methods ([runWorker],
    [makeRequest], [getMessages] and the four call adapters), followed by
    the properties established about them.  [runWorkerAsync], which
    differs from [runWorker] in running each request in a goroutine of an
    [errgroup], is not embedded.

    Conventions of the embedding.
    - A Go [error] value is an [option error]; [None] is [nil].
    - [int] and [int64] are [Z] with two's complement wrap-around written
      out by [wrap64] (a 64-bit platform is assumed for [int]).
    - A slice is an [option (list A)]: [None] is the nil slice, which Go
      tells apart from an empty one only in comparisons with [nil].
    - [[]byte] and [string] are both [string]; the conversions between them
      in the source are the identity on the bytes.
    - Everything the worker does to the outside world (template engine,
      decoders, stub, streams, timers, logger) is recorded, in program
      order, in a trace of [event]s. *)

From Stdlib Require Import ZArith List Bool String Lia.
Import ListNotations.
Local Open Scope Z_scope.

(** ** Machine integers *)

Definition wrap64 (z : Z) : Z := (z + 2 ^ 63) mod 2 ^ 64 - 2 ^ 63.

Definition max_int64 : Z := 2 ^ 63 - 1.
Definition min_int64 : Z := - 2 ^ 63.

(** Go's [%] on integers truncates towards zero. *)
Definition go_rem (a b : Z) : Z := Z.rem a b.

(** ** Errors *)

#[local] Unset Elimination Schemes.
Inductive error : Type :=
| io_EOF
| errorString (msg : string)
| rpcError (code : nat)
| multiError (errs : list error).
#[local] Set Elimination Schemes.

Definition goerror : Type := option error.

(** [err == io.EOF] *)
Definition is_EOF (e : goerror) : bool :=
  match e with
  | Some io_EOF => true
  | _ => false
  end.

Definition is_nil (e : goerror) : bool :=
  match e with
  | None => true
  | Some _ => false
  end.

(** go.uber.org/multierr: [Append] keeps the other side when one side is
    nil and otherwise flattens both sides into one combined error. *)
Definition errors_of (e : goerror) : list error :=
  match e with
  | None => []
  | Some (multiError l) => l
  | Some x => [x]
  end.

Definition multierr_Append (left right : goerror) : goerror :=
  match left, right with
  | None, _ => right
  | _, None => left
  | Some _, Some _ => Some (multiError (errors_of left ++ errors_of right))
  end.

(** ** Slices *)

Definition slice (A : Type) : Type := option (list A).

Definition elems {A} (s : slice A) : list A :=
  match s with
  | None => []
  | Some l => l
  end.

(** [len] is an [int]; a slice never holds more than [max_int64] elements,
    so [int64(len(s))] is the same number. *)
Definition len {A} (s : slice A) : Z := Z.of_nat (List.length (elems s)).

(** [s[i]]: [None] is the run-time panic for an index out of range. *)
Definition index {A} (s : slice A) (i : Z) : option A :=
  if i <? 0 then None else nth_error (elems s) (Z.to_nat i).

(** ** Configuration and descriptors *)

Record MethodDescriptor : Type := {
  IsClientStreaming : bool;
  IsServerStreaming : bool;
  GetFullyQualifiedName : string
}.

Record RunConfig : Type := {
  binary : bool;
  data : string;
  metadata : string;
  timeout : Z;
  streamInterval : Z;
  enableCompression : bool;
  hasLog : bool
}.

(** Modelled from the spec: [callTemplateData] and [newCallTemplateData]
    live in another file of the package; the templating context is seeded
    with the request number, the worker identity and the method. *)
Record callTemplateData : Type := {
  ctd_WorkerID : string;
  ctd_RequestNumber : Z;
  ctd_Method : MethodDescriptor
}.

Definition newCallTemplateData (mtd : MethodDescriptor) (workerID : string)
  (reqNum : Z) : callTemplateData :=
  {| ctd_WorkerID := workerID; ctd_RequestNumber := reqNum; ctd_Method := mtd |}.

(** grpc metadata: [MD] is a map from keys to lists of values. *)
Definition MD : Type := list (string * list string).

Definition metadata_New (m : list (string * string)) : MD :=
  map (fun kv => (fst kv, [snd kv])) m.

Fixpoint MD_Append (md : MD) (k v : string) : MD :=
  match md with
  | [] => [(k, [v])]
  | (k', vs) :: rest =>
      if String.eqb k k' then (k', vs ++ [v]) :: rest
      else (k', vs) :: MD_Append rest k v
  end.

Definition gzip_Name : string := "gzip"%string.

Inductive CallOption : Type :=
| UseCompressor (name : string).

(** [context.WithTimeout] or [context.WithCancel], with the outgoing
    metadata attached. *)
Record Context : Type := {
  ctx_deadline : option Z;
  ctx_outgoing : MD
}.

(** ** The environment of one call

    What the stub and the stream of one call answer, and how the Go
    scheduler interleaves the receive goroutine of a bidirectional call
    with the adapter.  The responses themselves only reach the logger, so
    only the errors are kept. *)

Inductive thread : Type := MainThread | RecvThread.

Definition other_thread (t : thread) : thread :=
  match t with
  | MainThread => RecvThread
  | RecvThread => MainThread
  end.

Record CallEnv : Type := {
  invoke_err : goerror;          (* InvokeRpc, InvokeRpc...Stream *)
  send_err : nat -> goerror;     (* the i-th SendMsg of the call, from 0 *)
  recv_err : nat -> goerror;     (* the i-th RecvMsg of the call, from 0 *)
  close_recv_err : goerror;      (* CloseAndReceive *)
  close_send_err : goerror;      (* CloseSend *)
  schedule : nat -> thread       (* which goroutine is tried first at a tick *)
}.

(** How a call of a Go function ends, when it ends. *)
Inductive completion (A : Type) : Type :=
| Returned (a : A)
| Panicked.
Arguments Returned {A} a.
Arguments Panicked {A}.

Section Worker.

(** [*dynamic.Message]: opaque to the worker. *)
Variable Message : Type.

(** The collaborators defined elsewhere in the package: the template engine
    and the two payload decoders.  Each returns Go's pair of a value and an
    error. *)
Record Collaborators : Type := {
  executeData : callTemplateData -> string -> string * goerror;
  executeMetadata :
    callTemplateData -> string -> list (string * string) * goerror;
  createPayloadsFromJSON :
    string -> MethodDescriptor -> slice Message * goerror;
  createPayloadsFromBin :
    string -> MethodDescriptor -> slice Message * goerror
}.

Variable C : Collaborators.

(** ** Events *)

Inductive event : Type :=
| EvExecuteData (ctd : callTemplateData) (input : string)
| EvCreatePayloadsFromJSON (input : string)
| EvCreatePayloadsFromBin (input : string)
| EvExecuteMetadata (ctd : callTemplateData)
| EvLog (msg : string)
| EvInvokeRpc (ctx : Context) (input : Message) (opts : list CallOption)
| EvInvokeRpcClientStream (ctx : Context) (opts : list CallOption)
| EvInvokeRpcServerStream (ctx : Context) (input : Message)
    (opts : list CallOption)
| EvInvokeRpcBidiStream (ctx : Context) (opts : list CallOption)
| EvSendMsg (payload : Message)
| EvRecvMsg
| EvCloseAndReceive
| EvCloseSend
| EvTick (d : Z)
| EvCancel
| EvCond (workerID : string) (rErr : goerror) (n : Z) (elapsed : Z).

Definition trace : Type := list event.

(** Events that reach the remote side through the stub or a stream. *)
Definition is_rpc_event (e : event) : bool :=
  match e with
  | EvInvokeRpc _ _ _ | EvInvokeRpcClientStream _ _
  | EvInvokeRpcServerStream _ _ _ | EvInvokeRpcBidiStream _ _
  | EvSendMsg _ | EvRecvMsg | EvCloseAndReceive | EvCloseSend => true
  | _ => false
  end.

Definition rpc_events (tr : trace) : trace := filter is_rpc_event tr.

Definition is_send_event (e : event) : bool :=
  match e with
  | EvSendMsg _ => true
  | _ => false
  end.

(** [if w.config.hasLog { w.config.log.<Level>w(msg, ...) }] *)
Definition log_if (enabled : bool) (msg : string) : trace :=
  if enabled then [EvLog msg] else [].

(** ** The worker *)

(** [stub], [done], [reqCounter] and the lock belong to the environment of
    the worker and are threaded separately; see [CallEnv], [LoopEnv] and
    [loop_state]. *)
Record Worker : Type := {
  mtd : MethodDescriptor;
  config : RunConfig;
  workerID : string;
  cachedMessages : slice Message;
  arrayJSONData : slice string;
  active : bool
}.

Definition isActive (w : Worker) : bool := active w.

Definition setActive (w : Worker) (v : bool) : Worker :=
  {| mtd := mtd w; config := config w; workerID := workerID w;
     cachedMessages := cachedMessages w; arrayJSONData := arrayJSONData w;
     active := v |}.

Definition set_cachedMessages (w : Worker) (c : slice Message) : Worker :=
  {| mtd := mtd w; config := config w; workerID := workerID w;
     cachedMessages := c; arrayJSONData := arrayJSONData w;
     active := active w |}.

(** ** getMessages *)

Definition getMessages (w : Worker) (ctd : callTemplateData)
  (inputData : string) : Worker * (slice Message * goerror) * trace :=
  match cachedMessages w with
  | Some c => (w, (Some c, None), [])
  | None =>
      if negb (binary (config w)) then
        match executeData C ctd inputData with
        | (_, Some err) => (w, (None, Some err), [EvExecuteData ctd inputData])
        | (data, None) =>
            match createPayloadsFromJSON C data (mtd w) with
            | (_, Some err) =>
                (w, (None, Some err),
                 [EvExecuteData ctd inputData; EvCreatePayloadsFromJSON data])
            | (inputs, None) =>
                (w, (inputs, None),
                 [EvExecuteData ctd inputData; EvCreatePayloadsFromJSON data])
            end
        end
      else
        match createPayloadsFromBin C inputData (mtd w) with
        | (_, Some err) =>
            (w, (None, Some err), [EvCreatePayloadsFromBin inputData])
        | (inputs, None) =>
            (set_cachedMessages w inputs, (inputs, None),
             [EvCreatePayloadsFromBin inputData])
        end
  end.

(** A worker issuing one [getMessages] call after the other. *)
Fixpoint getMessagesSeq (w : Worker) (calls : list (callTemplateData * string))
  : Worker * list (slice Message * goerror) * trace :=
  match calls with
  | [] => (w, [], [])
  | (ctd, inputData) :: rest =>
      let '(w1, r, tr1) := getMessages w ctd inputData in
      let '(w2, rs, tr2) := getMessagesSeq w1 rest in
      (w2, r :: rs, tr1 ++ tr2)
  end.

(** ** Payload selection in makeRequest *)

(** [int((reqNum - 1) % int64(n))] *)
Definition rotationIndex (reqNum : Z) (n : Z) : Z :=
  wrap64 (go_rem (wrap64 (reqNum - 1)) n).

(** Lines 181-182: [inputs[inputIdx]]. *)
Definition selectInput {A} (reqNum : Z) (inputs : slice A) : option A :=
  index inputs (rotationIndex reqNum (len inputs)).

(** ** The call adapters *)

Definition callOptions (w : Worker) : list CallOption :=
  if enableCompression (config w) then [UseCompressor gzip_Name] else [].

Definition is_nil_slice {A} (s : slice A) : bool :=
  match s with
  | None => true
  | Some _ => false
  end.

(** [time.Tick] and the receive on its channel, when an interval is set. *)
Definition wait_interval (w : Worker) : trace :=
  if 0 <? streamInterval (config w)
  then [EvTick (streamInterval (config w))] else [].

Definition andThen {A} (tr : trace) (r : option (A * trace))
  : option (A * trace) :=
  match r with
  | None => None
  | Some (a, tr') => Some (a, tr ++ tr')
  end.

Definition closeAndReceive (w : Worker) : trace :=
  EvCloseAndReceive :: log_if (hasLog (config w)) "Close and receive".

Definition closeSend (w : Worker) : trace :=
  EvCloseSend :: log_if (hasLog (config w)) "Close send".

(** The body of [for err == nil] in [makeClientStreamingRequest], entered
    with [err == nil].  The result is the value of [err] when the loop is
    left. *)
Fixpoint clientStreamLoop (w : Worker) (env : CallEnv) (input : slice Message)
  (fuel : nat) (counter : Z) : option (completion goerror * trace) :=
  match fuel with
  | O => None
  | S fuel' =>
      let inputLen := len input in
      if is_nil_slice input || (inputLen =? 0) then
        Some (Returned None, closeAndReceive w)
      else if counter =? inputLen then
        Some (Returned None, closeAndReceive w)
      else
        match index input counter with
        | None => Some (Panicked, [])
        | Some payload =>
            let err := send_err env (Z.to_nat counter) in
            let tr := wait_interval w ++ EvSendMsg payload
                        :: log_if (hasLog (config w)) "Send message" in
            if is_EOF err then
              Some (Returned err, tr ++ closeAndReceive w)
            else if is_nil err then
              andThen tr
                (clientStreamLoop w env input fuel' (wrap64 (counter + 1)))
            else
              Some (Returned err, tr)
        end
  end.

Definition makeClientStreamingRequest (w : Worker) (env : CallEnv)
  (ctx : Context) (input : slice Message) (fuel : nat)
  : option (completion goerror * trace) :=
  let err := invoke_err env in
  let tr0 := EvInvokeRpcClientStream ctx (callOptions w)
               :: log_if (negb (is_nil err) && hasLog (config w))
                    "Invoke Client Streaming RPC call error" in
  if is_nil err then
    match clientStreamLoop w env input fuel 0 with
    | None => None
    | Some (Panicked, tr) => Some (Panicked, tr0 ++ tr)
    | Some (Returned _, tr) => Some (Returned None, tr0 ++ tr)
    end
  else Some (Returned None, tr0).

(** The body of [for err == nil] in [makeServerStreamingRequest].
    [res, err := str.RecvMsg()] declares a new [err] whose scope is the
    body: the result of the loop is the value that this inner variable has
    at the [break]. *)
Fixpoint serverStreamLoop (w : Worker) (env : CallEnv) (fuel : nat)
  (calls : nat) : option (goerror * trace) :=
  match fuel with
  | O => None
  | S fuel' =>
      let err := recv_err env calls in
      let tr := EvRecvMsg :: log_if (hasLog (config w)) "Receive message" in
      if negb (is_nil err) then
        Some (if is_EOF err then None else err, tr)
      else
        andThen tr (serverStreamLoop w env fuel' (S calls))
  end.

(** [return err] names the [err] of [str, err := ...InvokeRpcServerStream],
    which the loop reads in its condition and never assigns. *)
Definition makeServerStreamingRequest (w : Worker) (env : CallEnv)
  (ctx : Context) (input : Message) (fuel : nat)
  : option (completion goerror * trace) :=
  let err := invoke_err env in
  let tr0 := EvInvokeRpcServerStream ctx input (callOptions w)
               :: log_if (negb (is_nil err) && hasLog (config w))
                    "Invoke Server Streaming RPC call error" in
  if is_nil err then
    match serverStreamLoop w env fuel 0 with
    | None => None
    | Some (_, tr) => Some (Returned err, tr0 ++ tr)
    end
  else Some (Returned err, tr0).

Definition makeUnaryRequest (w : Worker) (env : CallEnv) (ctx : Context)
  (reqMD : MD) (input : Message) : option (completion goerror * trace) :=
  let resErr := invoke_err env in
  Some (Returned resErr,
        EvInvokeRpc ctx input (callOptions w)
          :: log_if (hasLog (config w)) "Received response").

(** *** makeBidiRequest

    After the stream is open and the input is known to be non-empty the
    adapter runs two goroutines: its own (the send loop, then the wait on
    [recvDone]) and the receive goroutine started by [go func()].  Each is
    a small-step machine over a shared state; one step is one pass through
    a loop body, or the statement after the loop. *)

Inductive bidi_pc : Type :=
| SendLoop        (* at the test of [for err == nil] *)
| AfterLoop       (* at [if err == nil { <-recvDone }] *)
| BidiReturned    (* [return nil] was executed *)
| BidiPanicked.

Record bidi_state : Type := {
  b_pc : bidi_pc;
  b_err : goerror;         (* [err] of the adapter *)
  b_counter : Z;           (* [counter] *)
  b_recv_alive : bool;     (* the receive goroutine is still in its loop *)
  b_recv_calls : nat;      (* [RecvMsg] calls made so far *)
  b_recvDone : bool;       (* [close(recvDone)] was executed *)
  b_trace : trace
}.

Definition bidi_init (tr0 : trace) : bidi_state :=
  {| b_pc := SendLoop; b_err := None; b_counter := 0;
     b_recv_alive := true; b_recv_calls := 0%nat; b_recvDone := false;
     b_trace := tr0 |}.

Definition main_step (w : Worker) (env : CallEnv) (input : slice Message)
  (s : bidi_state) : option bidi_state :=
  match b_pc s with
  | SendLoop =>
      if is_nil (b_err s) then
        if b_counter s =? len input then
          Some {| b_pc := AfterLoop; b_err := b_err s;
                  b_counter := b_counter s;
                  b_recv_alive := b_recv_alive s;
                  b_recv_calls := b_recv_calls s;
                  b_recvDone := b_recvDone s;
                  b_trace := b_trace s ++ closeSend w |}
        else
          match index input (b_counter s) with
          | None =>
              Some {| b_pc := BidiPanicked; b_err := b_err s;
                      b_counter := b_counter s;
                      b_recv_alive := b_recv_alive s;
                      b_recv_calls := b_recv_calls s;
                      b_recvDone := b_recvDone s;
                      b_trace := b_trace s |}
          | Some payload =>
              Some {| b_pc := SendLoop;
                      b_err := send_err env (Z.to_nat (b_counter s));
                      b_counter := wrap64 (b_counter s + 1);
                      b_recv_alive := b_recv_alive s;
                      b_recv_calls := b_recv_calls s;
                      b_recvDone := b_recvDone s;
                      b_trace := b_trace s ++ wait_interval w
                                   ++ EvSendMsg payload
                                   :: log_if (hasLog (config w))
                                        "Send message" |}
          end
      else
        Some {| b_pc := AfterLoop; b_err := b_err s;
                b_counter := b_counter s;
                b_recv_alive := b_recv_alive s;
                b_recv_calls := b_recv_calls s;
                b_recvDone := b_recvDone s;
                b_trace := b_trace s |}
  | AfterLoop =>
      if is_nil (b_err s) && negb (b_recvDone s) then
        None                      (* blocked in [<-recvDone] *)
      else
        Some {| b_pc := BidiReturned; b_err := b_err s;
                b_counter := b_counter s;
                b_recv_alive := b_recv_alive s;
                b_recv_calls := b_recv_calls s;
                b_recvDone := b_recvDone s;
                b_trace := b_trace s |}
  | BidiReturned | BidiPanicked => None
  end.

Definition recv_step (w : Worker) (env : CallEnv) (s : bidi_state)
  : option bidi_state :=
  if b_recv_alive s then
    let err := recv_err env (b_recv_calls s) in
    Some {| b_pc := b_pc s; b_err := b_err s; b_counter := b_counter s;
            b_recv_alive := is_nil err;
            b_recv_calls := S (b_recv_calls s);
            b_recvDone := if is_nil err then b_recvDone s else true;
            b_trace := b_trace s
                         ++ EvRecvMsg
                         :: log_if (hasLog (config w)) "Receive message" |}
  else None.

Definition thread_step (w : Worker) (env : CallEnv) (input : slice Message)
  (t : thread) (s : bidi_state) : option bidi_state :=
  match t with
  | MainThread => main_step w env input s
  | RecvThread => recv_step w env s
  end.

(** Any interleaving of the two goroutines. *)
Inductive bidi_reachable (w : Worker) (env : CallEnv) (input : slice Message)
  (tr0 : trace) : bidi_state -> Prop :=
| reach_init : bidi_reachable w env input tr0 (bidi_init tr0)
| reach_step : forall t s s',
    bidi_reachable w env input tr0 s ->
    thread_step w env input t s = Some s' ->
    bidi_reachable w env input tr0 s'.

(** The interleaving chosen by [schedule env], up to the return of the
    adapter: at each tick the scheduled goroutine runs if it can, else the
    other one. *)
Fixpoint bidi_run (w : Worker) (env : CallEnv) (input : slice Message)
  (fuel : nat) (tick : nat) (s : bidi_state) : option bidi_state :=
  match b_pc s with
  | BidiReturned | BidiPanicked => Some s
  | SendLoop | AfterLoop =>
      match fuel with
      | O => None
      | S fuel' =>
          let t := schedule env tick in
          match thread_step w env input t s with
          | Some s' => bidi_run w env input fuel' (S tick) s'
          | None =>
              match thread_step w env input (other_thread t) s with
              | Some s' => bidi_run w env input fuel' (S tick) s'
              | None => None
              end
          end
      end
  end.

Definition makeBidiRequest (w : Worker) (env : CallEnv) (ctx : Context)
  (input : slice Message) (fuel : nat)
  : option (completion goerror * trace) :=
  let err := invoke_err env in
  let tr0 := [EvInvokeRpcBidiStream ctx (callOptions w)] in
  if negb (is_nil err) then
    Some (Returned err,
          tr0 ++ log_if (hasLog (config w)) "Invoke Bidi RPC call error")
  else if is_nil_slice input || (len input =? 0) then
    Some (Returned None, tr0 ++ closeSend w)
  else
    match bidi_run w env input fuel 0 (bidi_init tr0) with
    | None => None
    | Some s =>
        match b_pc s with
        | BidiPanicked => Some (Panicked, b_trace s)
        | _ => Some (Returned None, b_trace s)
        end
    end.

(** ** makeRequest *)

(** Lines 117-127: the inputs of the request.  [None] is the panic of
    [w.arrayJSONData[indx]]. *)
Definition resolveInputs (w : Worker) (reqNum : Z)
  : option (Worker * (slice Message * goerror) * trace) :=
  let ctd := newCallTemplateData (mtd w) (workerID w) reqNum in
  if negb (binary (config w)) && negb (IsClientStreaming (mtd w))
     && (0 <? len (arrayJSONData w)) then
    let indx := rotationIndex reqNum (len (arrayJSONData w)) in
    match index (arrayJSONData w) indx with
    | None => None
    | Some d => Some (getMessages w ctd d)
    end
  else Some (getMessages w ctd (data (config w))).

Definition errNoData : error :=
  errorString "no data provided for request".

(** Lines 134-159: the outgoing metadata and the context of the call. *)
Definition requestMD (w : Worker) (mdMap : list (string * string)) : MD :=
  let reqMD := if 0 <? Z.of_nat (List.length mdMap)
               then metadata_New mdMap else [] in
  if enableCompression (config w)
  then MD_Append reqMD "grpc-accept-encoding" gzip_Name
  else reqMD.

Definition requestContext (w : Worker) (reqMD : MD) : Context :=
  {| ctx_deadline := if 0 <? timeout (config w)
                     then Some (timeout (config w)) else None;
     ctx_outgoing := reqMD |}.

(** Lines 185-193: the adapter for the shape of the method. *)
Definition dispatch (w : Worker) (env : CallEnv) (ctx : Context) (reqMD : MD)
  (inputs : slice Message) (unaryInput : Message) (fuel : nat)
  : option (completion goerror * trace) :=
  if IsClientStreaming (mtd w) && IsServerStreaming (mtd w) then
    makeBidiRequest w env ctx inputs fuel
  else if IsClientStreaming (mtd w) then
    makeClientStreamingRequest w env ctx inputs fuel
  else if IsServerStreaming (mtd w) then
    makeServerStreamingRequest w env ctx unaryInput fuel
  else
    makeUnaryRequest w env ctx reqMD unaryInput.

(** [EvCancel] is the deferred [cancel()], run on every way out once the
    context exists. *)
Definition makeRequest (w : Worker) (reqNum : Z) (env : CallEnv) (fuel : nat)
  : option (Worker * completion goerror * trace) :=
  let ctd := newCallTemplateData (mtd w) (workerID w) reqNum in
  match resolveInputs w reqNum with
  | None => Some (w, Panicked, [])
  | Some (w1, (_, Some err), tr1) => Some (w1, Returned (Some err), tr1)
  | Some (w1, (inputs, None), tr1) =>
      let '(mdMap, err) := executeMetadata C ctd (metadata (config w1)) in
      let tr2 := tr1 ++ [EvExecuteMetadata ctd] in
      if negb (is_nil err) then Some (w1, Returned err, tr2)
      else
        let reqMD := requestMD w1 mdMap in
        let ctx := requestContext w1 reqMD in
        let tr3 := tr2 ++ log_if (hasLog (config w1)) "Making request" in
        let inputsLen := len inputs in
        if inputsLen =? 0 then
          Some (w1, Returned (Some errNoData), tr3 ++ [EvCancel])
        else
          match selectInput reqNum inputs with
          | None => Some (w1, Panicked, tr3 ++ [EvCancel])
          | Some unaryInput =>
              match dispatch w1 env ctx reqMD inputs unaryInput fuel with
              | None => None
              | Some (Panicked, tr4) =>
                  Some (w1, Panicked, tr3 ++ tr4 ++ [EvCancel])
              | Some (Returned _, tr4) =>
                  Some (w1, Returned err, tr3 ++ tr4 ++ [EvCancel])
              end
          end
  end.

(** ** runWorker *)

(** The environment of the scheduler loop: whether a receive on [w.done]
    can proceed at the i-th pass through the [select], what
    [time.Since(start)] is there, and the environment of each call. *)
Record LoopEnv : Type := {
  done_ready : nat -> bool;
  since_start : nat -> Z;
  call_env : Z -> CallEnv
}.

(** [ConditionChecker] *)
Definition ConditionChecker : Type := string -> goerror -> Z -> Z -> bool.

(** The variables of [runWorker], with the worker and the shared counter
    [*w.reqCounter]. *)
Record loop_state : Type := {
  l_worker : Worker;
  l_reqCounter : Z;
  l_err : goerror;
  l_rErr : goerror;
  l_n : Z;
  l_trace : trace
}.

(** [rErr := w.makeRequest(reqNum)] declares a new [rErr] in the block of
    the [if]; it is what [multierr.Append] receives.  The [rErr] declared
    by [var err, rErr error] is the one passed to [cond]; nothing assigns
    it. *)
Fixpoint runWorkerLoop (lenv : LoopEnv) (cond : ConditionChecker)
  (stopOnCond : bool) (fuel : nat) (pass : nat) (st : loop_state)
  : option (completion goerror * loop_state) :=
  match fuel with
  | O => None
  | S fuel' =>
      if done_ready lenv pass then
        Some (Returned None, st)
      else
        let w := l_worker st in
        let elapsed := since_start lenv pass in
        let tr := l_trace st
                    ++ [EvCond (workerID w) (l_rErr st) (l_n st) elapsed] in
        if cond (workerID w) (l_rErr st) (l_n st) elapsed then
          let reqNum := wrap64 (l_reqCounter st + 1) in
          let n := wrap64 (l_n st + 1) in
          match makeRequest w reqNum (call_env lenv reqNum) fuel' with
          | None => None
          | Some (w', Panicked, tr') =>
              Some (Panicked,
                    {| l_worker := w'; l_reqCounter := reqNum;
                       l_err := l_err st; l_rErr := l_rErr st; l_n := n;
                       l_trace := tr ++ tr' |})
          | Some (w', Returned rErr, tr') =>
              runWorkerLoop lenv cond stopOnCond fuel' (S pass)
                {| l_worker := w'; l_reqCounter := reqNum;
                   l_err := multierr_Append (l_err st) rErr;
                   l_rErr := l_rErr st; l_n := n;
                   l_trace := tr ++ tr' |}
          end
        else if stopOnCond then
          Some (Returned (l_err st),
                {| l_worker := w; l_reqCounter := l_reqCounter st;
                   l_err := l_err st; l_rErr := l_rErr st; l_n := l_n st;
                   l_trace := tr |})
        else
          runWorkerLoop lenv cond stopOnCond fuel' (S pass)
            {| l_worker := w; l_reqCounter := l_reqCounter st;
               l_err := l_err st; l_rErr := l_rErr st; l_n := l_n st;
               l_trace := tr |}
  end.

Definition runWorker (w : Worker) (reqCounter : Z) (lenv : LoopEnv)
  (cond : ConditionChecker) (stopOnCond : bool) (fuel : nat)
  : option (completion goerror * loop_state) :=
  runWorkerLoop lenv cond stopOnCond fuel 0
    {| l_worker := w; l_reqCounter := reqCounter; l_err := None;
       l_rErr := None; l_n := 0; l_trace := [] |}.

End Worker.

Arguments EvExecuteData {Message}.
Arguments EvCreatePayloadsFromJSON {Message}.
Arguments EvCreatePayloadsFromBin {Message}.
Arguments EvExecuteMetadata {Message}.
Arguments EvLog {Message}.
Arguments EvInvokeRpc {Message}.
Arguments EvInvokeRpcClientStream {Message}.
Arguments EvInvokeRpcServerStream {Message}.
Arguments EvInvokeRpcBidiStream {Message}.
Arguments EvSendMsg {Message}.
Arguments EvRecvMsg {Message}.
Arguments EvCloseAndReceive {Message}.
Arguments EvCloseSend {Message}.
Arguments EvTick {Message}.
Arguments EvCancel {Message}.
Arguments EvCond {Message}.
Arguments is_rpc_event {Message}.
Arguments rpc_events {Message}.
Arguments is_send_event {Message}.
Arguments log_if {Message}.
Arguments mtd {Message}.
Arguments config {Message}.
Arguments workerID {Message}.
Arguments cachedMessages {Message}.
Arguments arrayJSONData {Message}.
Arguments active {Message}.
Arguments isActive {Message}.
Arguments setActive {Message}.
Arguments set_cachedMessages {Message}.
Arguments executeData {Message}.
Arguments executeMetadata {Message}.
Arguments createPayloadsFromJSON {Message}.
Arguments createPayloadsFromBin {Message}.
Arguments getMessages {Message}.
Arguments getMessagesSeq {Message}.
Arguments callOptions {Message}.
Arguments wait_interval {Message}.
Arguments andThen {Message A}.
Arguments closeAndReceive {Message}.
Arguments closeSend {Message}.
Arguments clientStreamLoop {Message}.
Arguments makeClientStreamingRequest {Message}.
Arguments serverStreamLoop {Message}.
Arguments makeServerStreamingRequest {Message}.
Arguments makeUnaryRequest {Message}.
Arguments b_pc {Message}.
Arguments b_err {Message}.
Arguments b_counter {Message}.
Arguments b_recv_alive {Message}.
Arguments b_recv_calls {Message}.
Arguments b_recvDone {Message}.
Arguments b_trace {Message}.
Arguments bidi_init {Message}.
Arguments main_step {Message}.
Arguments recv_step {Message}.
Arguments thread_step {Message}.
Arguments bidi_reachable {Message}.
Arguments reach_init {Message}.
Arguments reach_step {Message}.
Arguments bidi_run {Message}.
Arguments makeBidiRequest {Message}.
Arguments resolveInputs {Message}.
Arguments requestMD {Message}.
Arguments requestContext {Message}.
Arguments dispatch {Message}.
Arguments makeRequest {Message}.
Arguments l_worker {Message}.
Arguments l_reqCounter {Message}.
Arguments l_err {Message}.
Arguments l_rErr {Message}.
Arguments l_n {Message}.
Arguments l_trace {Message}.
Arguments runWorkerLoop {Message}.
Arguments runWorker {Message}.

(** ** Concrete workers and environments

    Messages are numbers.  The template engine is the identity on payload
    data and rejects the metadata template ["{{"]; the JSON decoder yields
    no message for the empty text and one message otherwise; the binary
    decoder yields one message. *)

Definition demoCollaborators : Collaborators nat :=
  {| executeData := fun _ s => (s, None);
     executeMetadata := fun _ s =>
       if String.eqb s "{{"
       then ([], Some (errorString "template: unclosed action"))
       else ([], None);
     createPayloadsFromJSON := fun s _ =>
       if String.eqb s "" then (None, None)
       else (Some [String.length s], None);
     createPayloadsFromBin := fun s _ => (Some [String.length s], None) |}.

Definition demoMethod (clientStreaming serverStreaming : bool)
  : MethodDescriptor :=
  {| IsClientStreaming := clientStreaming;
     IsServerStreaming := serverStreaming;
     GetFullyQualifiedName := "helloworld.Greeter.SayHello" |}.

Definition demoConfig (bin : bool) (payload md : string) : RunConfig :=
  {| binary := bin; data := payload; metadata := md; timeout := 0;
     streamInterval := 0; enableCompression := false; hasLog := false |}.

Definition demoWorker (clientStreaming serverStreaming bin : bool)
  (payload md : string) : Worker nat :=
  {| mtd := demoMethod clientStreaming serverStreaming;
     config := demoConfig bin payload md;
     workerID := "g0c0";
     cachedMessages := None;
     arrayJSONData := None;
     active := true |}.

Definition demoContext : Context :=
  {| ctx_deadline := None; ctx_outgoing := [] |}.

(** A remote side on which everything succeeds and the stream ends at the
    first receive. *)
Definition envOK : CallEnv :=
  {| invoke_err := None;
     send_err := fun _ => None;
     recv_err := fun _ => Some io_EOF;
     close_recv_err := None;
     close_send_err := None;
     schedule := fun _ => MainThread |}.

(** The first receive fails with a status other than end of stream. *)
Definition envRecvFails : CallEnv :=
  {| invoke_err := None;
     send_err := fun _ => None;
     recv_err := fun _ => Some (rpcError 4);
     close_recv_err := None;
     close_send_err := None;
     schedule := fun _ => MainThread |}.

(** The first send fails and the remote side never ends the stream. *)
Definition envSendFails : CallEnv :=
  {| invoke_err := None;
     send_err := fun _ => Some (rpcError 14);
     recv_err := fun _ => None;
     close_recv_err := None;
     close_send_err := None;
     schedule := fun _ => MainThread |}.

(** The stream cannot be opened. *)
Definition envOpenFails : CallEnv :=
  {| invoke_err := Some (rpcError 14);
     send_err := fun _ => None;
     recv_err := fun _ => Some io_EOF;
     close_recv_err := None;
     close_send_err := None;
     schedule := fun _ => MainThread |}.

(** A loop whose condition always accepts and whose [done] channel becomes
    ready at the given pass. *)
Definition demoLoopEnv (doneAt : nat) : LoopEnv :=
  {| done_ready := fun pass => Nat.leb doneAt pass;
     since_start := fun pass => Z.of_nat pass;
     call_env := fun _ => envOK |}.

Definition condAlways : ConditionChecker := fun _ _ _ _ => true.

(** A condition that accepts the first request only. *)
Definition condOnce : ConditionChecker := fun _ _ n _ => n =? 0.

(** Collaborators that reject malformed input: the template ["{{"], the
    JSON text ["{"] and empty binary data. *)
Definition strictCollaborators : Collaborators nat :=
  {| executeData := fun _ s =>
       if String.eqb s "{{"
       then (""%string, Some (errorString "template: unclosed action"))
       else (s, None);
     executeMetadata := fun _ s =>
       if String.eqb s "{{"
       then ([], Some (errorString "template: unclosed action"))
       else ([], None);
     createPayloadsFromJSON := fun s _ =>
       if String.eqb s "{"
       then (None, Some (errorString "unexpected EOF"))
       else (Some [String.length s], None);
     createPayloadsFromBin := fun s _ =>
       if String.eqb s ""
       then (None, Some (errorString "unexpected EOF"))
       else (Some [String.length s], None) |}.

(** The remote side closes the stream early: the second send reports the
    end of the stream. *)
Definition envSendEOF : CallEnv :=
  {| invoke_err := None;
     send_err := fun i => if Nat.eqb i 1 then Some io_EOF else None;
     recv_err := fun _ => Some io_EOF;
     close_recv_err := None;
     close_send_err := None;
     schedule := fun _ => MainThread |}.

(** The second send fails with a status; the stream ends at the third
    receive; the receive goroutine is scheduled first. *)
Definition envSecondSendFails : CallEnv :=
  {| invoke_err := None;
     send_err := fun i => if Nat.eqb i 1 then Some (rpcError 13) else None;
     recv_err := fun i => if Nat.leb 2 i then Some io_EOF else None;
     close_recv_err := None;
     close_send_err := None;
     schedule := fun _ => RecvThread |}.

(** A condition that never accepts. *)
Definition condNever : ConditionChecker := fun _ _ _ _ => false.

(** A loop environment whose [done] channel never becomes ready. *)
Definition neverDone : LoopEnv :=
  {| done_ready := fun _ => false;
     since_start := fun pass => Z.of_nat pass;
     call_env := fun _ => envOK |}.

(** Collaborators whose decoders yield two messages for every input. *)
Definition pairCollaborators : Collaborators nat :=
  {| executeData := fun _ s => (s, None);
     executeMetadata := fun _ _ => ([], None);
     createPayloadsFromJSON := fun s _ =>
       (Some [String.length s; S (String.length s)], None);
     createPayloadsFromBin := fun s _ =>
       (Some [String.length s; S (String.length s)], None) |}.

(** The state in which a bidirectional call on [[7; 8]] ends when everything
    succeeds and the stream ends at the first receive. *)
Definition bidiDoneState : bidi_state nat :=
  {| b_pc := BidiReturned; b_err := None; b_counter := 2;
     b_recv_alive := false; b_recv_calls := 1; b_recvDone := true;
     b_trace := [EvInvokeRpcBidiStream demoContext []; EvSendMsg 7%nat;
                 EvSendMsg 8%nat; EvCloseSend; EvRecvMsg] |}.

(** The state in which the adapter is blocked on [recvDone]: nothing more
    to send, the send side closed, no receive made yet. *)
Definition bidiWaitingState : bidi_state nat :=
  {| b_pc := AfterLoop; b_err := None; b_counter := 2;
     b_recv_alive := true; b_recv_calls := 0; b_recvDone := false;
     b_trace := [EvInvokeRpcBidiStream demoContext []; EvSendMsg 7%nat;
                 EvSendMsg 8%nat; EvCloseSend] |}.

(** A binary-mode worker whose cache already holds two messages. *)
Definition cachedWorker : Worker nat :=
  set_cachedMessages (demoWorker false false true "x" "") (Some [1; 2]%nat).

Definition demoCtd (reqNum : Z) : callTemplateData :=
  newCallTemplateData (mtd cachedWorker) (workerID cachedWorker) reqNum.

(** ** Predicates on the states of a bidirectional call *)

(** The receive goroutine has left its loop: its last [RecvMsg] returned an
    error (end of stream or another one). *)
Definition receive_task_finished {Message} (env : CallEnv)
  (s : bidi_state Message) : Prop :=
  b_recv_alive s = false
  /\ exists i, b_recv_calls s = S i /\ recv_err env i <> None.

(** [recvDone] is closed exactly when the receive goroutine has left its
    loop, which it does on an error; and the adapter does not pass
    [<-recvDone] with a nil [err] before that. *)
Definition bidi_inv {Message} (env : CallEnv) (s : bidi_state Message)
  : Prop :=
  b_recvDone s = negb (b_recv_alive s)
  /\ (b_recv_alive s = false -> receive_task_finished env s)
  /\ (b_pc s = BidiReturned -> b_err s = None -> b_recvDone s = true).

(** [counter] stays within the input, so [input[counter]] does not panic;
    the receive goroutine has not gone past the receive that fails. *)
Definition bidi_bounds {Message} (env : CallEnv) (input : slice Message)
  (k : nat) (s : bidi_state Message) : Prop :=
  0 <= b_counter s <= len input
  /\ b_pc s <> BidiPanicked
  /\ b_recvDone s = negb (b_recv_alive s)
  /\ (b_recv_alive s = true -> (b_recv_calls s <= k)%nat).

(** Steps left, at most, for the two goroutines together. *)
Definition bidi_measure {Message} (input : slice Message) (k : nat)
  (s : bidi_state Message) : nat :=
  (match b_pc s with
   | SendLoop => Z.to_nat (len input - b_counter s) + 2
   | AfterLoop => 1
   | BidiReturned | BidiPanicked => 0
   end
   + (if b_recv_alive s then k + 1 - b_recv_calls s else 0))%nat.

(** ** The claims that the code does not satisfy as they are stated *)

Definition is_cond_event {Message} (e : event Message) : bool :=
  match e with
  | EvCond _ _ _ _ => true
  | _ => false
  end.



(** "The bidirectional adapter does not return before the receive task has
    observed the end of the stream." *)
Definition bidi_returns_after_receiver {Message} (w : Worker Message)
  (env : CallEnv) (input : slice Message) (tr0 : trace Message) : Prop :=
  forall s,
    bidi_reachable w env input tr0 s ->
    b_pc s = BidiReturned ->
    receive_task_finished env s.

(** "A request whose resolved payload set is empty fails with the
    no-payload error, before any call on the network." *)
Definition empty_payload_gives_no_data {Message} (C : Collaborators Message)
  (w : Worker Message) (reqNum : Z) (env : CallEnv) (fuel : nat) : Prop :=
  forall w1 inputs tr1,
    resolveInputs C w reqNum = Some (w1, (inputs, None), tr1) ->
    len inputs = 0 ->
    exists tr,
      makeRequest C w reqNum env fuel
      = Some (w1, Returned (Some errNoData), tr)
      /\ rpc_events tr = [].

(** ** What a bidirectional call has done on its stream *)

Definition is_recv_event {Message} (e : event Message) : bool :=
  match e with
  | EvRecvMsg => true
  | _ => false
  end.

(** The send loop has sent the first [counter] payloads in their order and
    nothing else; [err] is the result of the last send; and when the loop
    has been left with a nil [err], every payload has been sent. *)
Definition bidi_sends {Message} (env : CallEnv) (input : slice Message)
  (s : bidi_state Message) : Prop :=
  0 <= b_counter s <= len input
  /\ filter is_send_event (b_trace s)
     = map EvSendMsg (firstn (Z.to_nat (b_counter s)) (elems input))
  /\ b_err s
     = match Z.to_nat (b_counter s) with
       | O => None
       | S i => send_err env i
       end
  /\ (b_pc s = AfterLoop \/ b_pc s = BidiReturned ->
      b_err s = None -> b_counter s = len input).

(** The receive goroutine has called [RecvMsg] [b_recv_calls] times, and
    only the last of these calls can have reported an error; it is still in
    its loop exactly when none has. *)
Definition bidi_receives {Message} (env : CallEnv) (s : bidi_state Message)
  : Prop :=
  List.length (filter is_recv_event (b_trace s)) = b_recv_calls s
  /\ (forall i, (S i < b_recv_calls s)%nat -> recv_err env i = None)
  /\ (b_recv_alive s = true ->
      forall i, (i < b_recv_calls s)%nat -> recv_err env i = None).

(** ** Counting in runWorker *)

(** An int64 after m increments by one. *)
Definition bump (z : Z) (m : nat) : Z :=
  match m with
  | O => z
  | S _ => wrap64 (z + Z.of_nat m)
  end.

(** ** What the condition of the scheduler loop is given *)

(** An evaluation of the condition that received a nil error; every other
    event passes. *)
Definition cond_nil {Message} (e : event Message) : Prop :=
  match e with
  | EvCond _ rErr _ _ => rErr = None
  | _ => True
  end.

(** * Properties *)

(** ** Machine arithmetic *)

Lemma wrap64_in_range (z : Z) :
  min_int64 <= z <= max_int64 -> wrap64 z = z.
Proof.
  unfold wrap64, min_int64, max_int64. intros H.
  rewrite Z.mod_small by lia. lia.
Qed.

Lemma rotationIndex_mod (n m : Z) :
  1 <= m -> 1 <= n <= max_int64 -> rotationIndex n m = (n - 1) mod m.
Proof.
  intros Hm Hn. unfold rotationIndex, go_rem.
  assert (Hr : max_int64 = 2 ^ 63 - 1) by reflexivity.
  rewrite (wrap64_in_range (n - 1)) by (unfold min_int64; lia).
  rewrite Z.rem_mod_nonneg by lia.
  pose proof (Z.mod_pos_bound (n - 1) m ltac:(lia)) as Hb.
  pose proof (Z.mod_le (n - 1) m ltac:(lia) ltac:(lia)) as Hle.
  apply wrap64_in_range. unfold min_int64. lia.
Qed.

Lemma rotationIndex_bounds (n m : Z) :
  1 <= m -> 1 <= n <= max_int64 -> 0 <= rotationIndex n m < m.
Proof.
  intros Hm Hn. rewrite rotationIndex_mod by assumption.
  apply Z.mod_pos_bound. lia.
Qed.

Lemma index_in_range {A} (s : slice A) (i : Z) :
  0 <= i < len s -> exists a, index s i = Some a.
Proof.
  intros [H0 H1]. unfold index, len in *.
  destruct (Z.ltb_spec i 0) as [Hneg | _]; [lia |].
  destruct (nth_error (elems s) (Z.to_nat i)) as [a |] eqn:E.
  - now exists a.
  - apply nth_error_None in E. lia.
Qed.

Lemma selectInput_in_range {A} (inputs : slice A) (n : Z) :
  1 <= len inputs ->
  1 <= n <= max_int64 ->
  exists payload, selectInput n inputs = Some payload.
Proof.
  intros HM Hn. unfold selectInput. apply index_in_range.
  apply rotationIndex_bounds; assumption.
Qed.

Section Properties.

Context {Message : Type} (C : Collaborators Message).

(** ** The payload cache *)

Lemma getMessages_cached (w : Worker Message) (c : list Message)
  (ctd : callTemplateData) (inputData : string) :
  cachedMessages w = Some c ->
  getMessages C w ctd inputData = (w, (Some c, None), []).
Proof.
  intros Hc. unfold getMessages. rewrite Hc. reflexivity.
Qed.

(** C7.  Once the cache of decoded payloads is populated, every further
    [getMessages] call of the worker returns exactly the cached set with a
    nil error, leaves the worker unchanged and calls neither the template
    engine nor a decoder (the trace of the calls is empty).  In binary mode
    the cache is populated by the first call whose decoding yields a
    non-nil set, and that call decodes once. *)
Theorem getMessages_cache_stable :
  forall (w : Worker Message) (c : list Message),
    (forall calls,
        cachedMessages w = Some c ->
        getMessagesSeq C w calls
        = (w, map (fun _ => (Some c, None)) calls, []))
    /\ (forall ctd inputData,
           binary (config w) = true ->
           cachedMessages w = None ->
           createPayloadsFromBin C inputData (mtd w) = (Some c, None) ->
           getMessages C w ctd inputData
           = (set_cachedMessages w (Some c), (Some c, None),
              [EvCreatePayloadsFromBin inputData])
           /\ cachedMessages (set_cachedMessages w (Some c)) = Some c).
Proof.
  intros w c. split.
  - intros calls Hc. induction calls as [| [ctd inputData] rest IH].
    + reflexivity.
    + cbn [getMessagesSeq map].
      rewrite (getMessages_cached w c ctd inputData Hc), IH.
      reflexivity.
  - intros ctd inputData Hbin Hnone Hdec. split; [| reflexivity].
    unfold getMessages. rewrite Hnone, Hbin, Hdec. reflexivity.
Qed.

(** ** Client streaming *)

(** C9.  With an empty input (nil or of length 0) and a stream that opened
    without error, [makeClientStreamingRequest] returns nil, and what it
    does on the stream is exactly: open it, then close-and-receive; no
    message is sent. *)
Theorem clientStreaming_empty_input :
  forall (w : Worker Message) (env : CallEnv) (ctx : Context)
         (input : slice Message) (fuel : nat),
    invoke_err env = None ->
    len input = 0 ->
    exists tr,
      makeClientStreamingRequest w env ctx input (S fuel)
      = Some (Returned None, tr)
      /\ rpc_events tr
         = [EvInvokeRpcClientStream ctx (callOptions w); EvCloseAndReceive]
      /\ filter is_send_event tr = [].
Proof.
  intros w env ctx input fuel Hopen Hlen.
  unfold makeClientStreamingRequest. rewrite Hopen.
  cbn [is_nil negb andb clientStreamLoop].
  rewrite Hlen. rewrite Z.eqb_refl, orb_true_r.
  eexists. split; [reflexivity |].
  unfold closeAndReceive, log_if, rpc_events.
  destruct (hasLog (config w)); split; reflexivity.
Qed.

Lemma clientStreamLoop_no_panic (w : Worker Message) (env : CallEnv)
  (input : slice Message) :
  len input <= max_int64 ->
  forall fuel counter,
    0 <= counter <= len input ->
    clientStreamLoop w env input fuel counter = None
    \/ exists e tr,
         clientStreamLoop w env input fuel counter = Some (Returned e, tr).
Proof.
  intros Hmax. induction fuel as [| fuel IH]; intros counter Hc.
  - left. reflexivity.
  - cbn [clientStreamLoop].
    destruct (is_nil_slice input || (len input =? 0)); [right; eauto |].
    destruct (Z.eqb_spec counter (len input)) as [-> | Hne];
      [right; eauto |].
    destruct (index_in_range input counter ltac:(lia)) as [payload Hp].
    rewrite Hp.
    destruct (is_EOF (send_err env (Z.to_nat counter))); [right; eauto |].
    destruct (is_nil (send_err env (Z.to_nat counter))); [| right; eauto].
    assert (Hw : wrap64 (counter + 1) = counter + 1).
    { apply wrap64_in_range. unfold min_int64, max_int64 in *. lia. }
    rewrite Hw.
    destruct (IH (counter + 1) ltac:(lia)) as [-> | (e & tr & ->)].
    + left. reflexivity.
    + right. cbn [andThen]. eauto.
Qed.

Lemma clientStreamLoop_enough_fuel (w : Worker Message) (env : CallEnv)
  (input : slice Message) :
  len input <= max_int64 ->
  forall fuel counter,
    0 <= counter <= len input ->
    (Z.to_nat (len input - counter) < fuel)%nat ->
    exists e tr,
      clientStreamLoop w env input fuel counter = Some (Returned e, tr).
Proof.
  intros Hmax. induction fuel as [| fuel IH]; intros counter Hc Hf.
  - lia.
  - cbn [clientStreamLoop].
    destruct (is_nil_slice input || (len input =? 0)); [eauto |].
    destruct (Z.eqb_spec counter (len input)) as [-> | Hne]; [eauto |].
    destruct (index_in_range input counter ltac:(lia)) as [payload Hp].
    rewrite Hp.
    destruct (is_EOF (send_err env (Z.to_nat counter))); [eauto |].
    destruct (is_nil (send_err env (Z.to_nat counter))); [| eauto].
    assert (Hw : wrap64 (counter + 1) = counter + 1).
    { apply wrap64_in_range. unfold min_int64, max_int64 in *. lia. }
    rewrite Hw.
    destruct (IH (counter + 1) ltac:(lia) ltac:(lia)) as (e & tr & ->).
    cbn [andThen]. eauto.
Qed.

(** [makeClientStreamingRequest] returns nil whenever it returns. *)
Lemma makeClientStreamingRequest_nil (w : Worker Message) (env : CallEnv)
  (ctx : Context) (input : slice Message) (fuel : nat) :
  len input <= max_int64 ->
  makeClientStreamingRequest w env ctx input fuel = None
  \/ exists tr,
       makeClientStreamingRequest w env ctx input fuel
       = Some (Returned None, tr).
Proof.
  intros Hmax. unfold makeClientStreamingRequest.
  destruct (is_nil (invoke_err env)); [| right; eauto].
  pose proof (Nat2Z.is_nonneg (List.length (elems input))) as Hlen.
  destruct (clientStreamLoop_no_panic w env input Hmax fuel 0)
    as [-> | (e & tr & ->)].
  - unfold len. lia.
  - left. reflexivity.
  - right. eauto.
Qed.

Lemma makeClientStreamingRequest_enough_fuel (w : Worker Message)
  (env : CallEnv) (ctx : Context) (input : slice Message) (fuel : nat) :
  len input <= max_int64 ->
  (Z.to_nat (len input) < fuel)%nat ->
  exists tr,
    makeClientStreamingRequest w env ctx input fuel
    = Some (Returned None, tr).
Proof.
  intros Hmax Hf. unfold makeClientStreamingRequest.
  destruct (is_nil (invoke_err env)); [| eauto].
  pose proof (Nat2Z.is_nonneg (List.length (elems input))) as Hlen.
  destruct (clientStreamLoop_enough_fuel w env input Hmax fuel 0)
    as (e & tr & ->).
  - unfold len. lia.
  - rewrite Z.sub_0_r. exact Hf.
  - eauto.
Qed.

(** ** Server streaming *)

(** Whatever the receive loop observes, the adapter returns the error of
    the call that opened the stream. *)
Lemma makeServerStreamingRequest_returns_open_error (w : Worker Message)
  (env : CallEnv) (ctx : Context) (input : Message) (fuel : nat)
  (c : completion goerror) (tr : trace Message) :
  makeServerStreamingRequest w env ctx input fuel = Some (c, tr) ->
  c = Returned (invoke_err env).
Proof.
  unfold makeServerStreamingRequest.
  destruct (is_nil (invoke_err env)).
  - destruct (serverStreamLoop w env fuel 0) as [[r tr'] |];
      intros H; inversion H; reflexivity.
  - intros H; inversion H; reflexivity.
Qed.

Lemma serverStreamLoop_enough_fuel (w : Worker Message) (env : CallEnv)
  (k : nat) :
  recv_err env k <> None ->
  forall fuel calls,
    (calls <= k)%nat ->
    (k - calls < fuel)%nat ->
    exists r tr, serverStreamLoop w env fuel calls = Some (r, tr).
Proof.
  intros Hk. induction fuel as [| fuel IH]; intros calls Hle Hf.
  - lia.
  - cbn [serverStreamLoop].
    destruct (recv_err env calls) as [e |] eqn:E; cbn [is_nil negb].
    + eauto.
    + assert (calls <> k) by (intros ->; congruence).
      destruct (IH (S calls) ltac:(lia) ltac:(lia)) as (r & tr & ->).
      cbn [andThen]. eauto.
Qed.

Lemma makeServerStreamingRequest_enough_fuel (w : Worker Message)
  (env : CallEnv) (ctx : Context) (input : Message) (k fuel : nat) :
  recv_err env k <> None ->
  (k < fuel)%nat ->
  exists tr,
    makeServerStreamingRequest w env ctx input fuel
    = Some (Returned (invoke_err env), tr).
Proof.
  intros Hk Hf. unfold makeServerStreamingRequest.
  destruct (is_nil (invoke_err env)); [| eauto].
  destruct (serverStreamLoop_enough_fuel w env k Hk fuel 0)
    as (r & tr & ->); [lia | lia |].
  eauto.
Qed.

(** ** Bidirectional streaming *)

Lemma bidi_inv_init (env : CallEnv) (tr0 : trace Message) :
  bidi_inv env (bidi_init tr0).
Proof.
  unfold bidi_inv, bidi_init; cbn. repeat split; intros; discriminate.
Qed.

Lemma bidi_inv_step (w : Worker Message) (env : CallEnv)
  (input : slice Message) (t : thread) (s s' : bidi_state Message) :
  bidi_inv env s ->
  thread_step w env input t s = Some s' ->
  bidi_inv env s'.
Proof.
  intros (Hdone & Hfin & Hret) Hstep.
  destruct t; cbn [thread_step] in Hstep.
  - (* the adapter *)
    unfold main_step in Hstep.
    destruct (b_pc s) eqn:Hpc; try discriminate.
    + destruct (is_nil (b_err s)).
      * destruct (b_counter s =? len input).
        -- inversion Hstep; subst; clear Hstep.
           repeat split; cbn; auto; try discriminate; apply Hfin; auto.
        -- destruct (index input (b_counter s));
             inversion Hstep; subst; clear Hstep;
             repeat split; cbn; auto; try discriminate; apply Hfin; auto.
      * inversion Hstep; subst; clear Hstep.
        repeat split; cbn; auto; try discriminate; apply Hfin; auto.
    + destruct (is_nil (b_err s) && negb (b_recvDone s)) eqn:Hblk;
        try discriminate.
      inversion Hstep; subst; clear Hstep.
      repeat split; cbn; auto; try (apply Hfin; auto).
      intros _ Herr. rewrite Herr in Hblk. cbn in Hblk.
      destruct (b_recvDone s); [reflexivity | discriminate].
  - (* the receive goroutine *)
    unfold recv_step in Hstep.
    destruct (b_recv_alive s) eqn:Halive; try discriminate.
    inversion Hstep; subst; clear Hstep.
    unfold bidi_inv, receive_task_finished; cbn.
    destruct (recv_err env (b_recv_calls s)) as [e |] eqn:E; cbn.
    + repeat split; auto.
      * exists (b_recv_calls s). split; [reflexivity | congruence].
    + cbn in Hdone. repeat split; auto; try discriminate.
Qed.

Lemma bidi_reachable_inv (w : Worker Message) (env : CallEnv)
  (input : slice Message) (tr0 : trace Message) (s : bidi_state Message) :
  bidi_reachable w env input tr0 s -> bidi_inv env s.
Proof.
  induction 1 as [| t s s' _ IH Hstep].
  - apply bidi_inv_init.
  - exact (bidi_inv_step w env input t s s' IH Hstep).
Qed.

(** The interleaving chosen by the schedule is one of the interleavings. *)
Lemma bidi_run_reachable (w : Worker Message) (env : CallEnv)
  (input : slice Message) (tr0 : trace Message) :
  forall fuel tick s s',
    bidi_reachable w env input tr0 s ->
    bidi_run w env input fuel tick s = Some s' ->
    bidi_reachable w env input tr0 s'
    /\ (b_pc s' = BidiReturned \/ b_pc s' = BidiPanicked).
Proof.
  induction fuel as [| fuel IH]; intros tick s s' Hreach Hrun.
  - cbn [bidi_run] in Hrun.
    destruct (b_pc s) eqn:Hpc; try discriminate;
      inversion Hrun; subst; auto.
  - cbn [bidi_run] in Hrun.
    assert (Hgo : forall s1 t,
               thread_step w env input t s = Some s1 ->
               bidi_run w env input fuel (S tick) s1 = Some s' ->
               bidi_reachable w env input tr0 s'
               /\ (b_pc s' = BidiReturned \/ b_pc s' = BidiPanicked)).
    { intros s1 t Hstep Hrun1. apply (IH (S tick) s1 s'); [| exact Hrun1].
      eapply reach_step; eassumption. }
    destruct (b_pc s) eqn:Hpc.
    3, 4: inversion Hrun; subst; auto.
    all: destruct (thread_step w env input (schedule env tick) s)
           as [s1 |] eqn:E1; [exact (Hgo s1 _ E1 Hrun) |];
         destruct (thread_step w env input
                     (other_thread (schedule env tick)) s)
           as [s2 |] eqn:E2; [exact (Hgo s2 _ E2 Hrun) | discriminate].
Qed.

Lemma bidi_bounds_init (env : CallEnv) (input : slice Message) (k : nat)
  (tr0 : trace Message) :
  bidi_bounds env input k (bidi_init tr0).
Proof.
  unfold bidi_bounds, bidi_init, len; cbn.
  repeat split; try lia; try discriminate.
Qed.

(** Every step keeps the bounds and uses up the measure. *)
Lemma bidi_bounds_step (w : Worker Message) (env : CallEnv)
  (input : slice Message) (k : nat) (t : thread)
  (s s' : bidi_state Message) :
  len input <= max_int64 ->
  recv_err env k <> None ->
  bidi_bounds env input k s ->
  thread_step w env input t s = Some s' ->
  bidi_bounds env input k s'
  /\ (bidi_measure input k s' < bidi_measure input k s)%nat.
Proof.
  intros Hmax Hk (Hc & Hnp & Hdone & Hcalls) Hstep.
  destruct t; cbn [thread_step] in Hstep.
  - unfold main_step in Hstep.
    destruct (b_pc s) eqn:Hpc; try discriminate.
    + destruct (is_nil (b_err s)).
      * destruct (Z.eqb_spec (b_counter s) (len input)) as [Heq | Hne].
        -- inversion Hstep; subst; clear Hstep.
           unfold bidi_bounds, bidi_measure;
             cbn [b_pc b_err b_counter b_recv_alive b_recv_calls b_recvDone]. rewrite Hpc.
           repeat split; auto; try lia; try discriminate.
        -- destruct (index_in_range input (b_counter s) ltac:(lia))
             as [payload Hp].
           rewrite Hp in Hstep. inversion Hstep; subst; clear Hstep.
           assert (Hw : wrap64 (b_counter s + 1) = b_counter s + 1).
           { apply wrap64_in_range. unfold min_int64, max_int64 in *. lia. }
           unfold bidi_bounds, bidi_measure;
             cbn [b_pc b_err b_counter b_recv_alive b_recv_calls b_recvDone]. rewrite Hpc, Hw.
           repeat split; auto; try lia; try discriminate.
      * inversion Hstep; subst; clear Hstep.
        unfold bidi_bounds, bidi_measure;
             cbn [b_pc b_err b_counter b_recv_alive b_recv_calls b_recvDone]. rewrite Hpc.
        repeat split; auto; try lia; try discriminate.
    + destruct (is_nil (b_err s) && negb (b_recvDone s)); try discriminate.
      inversion Hstep; subst; clear Hstep.
      unfold bidi_bounds, bidi_measure;
             cbn [b_pc b_err b_counter b_recv_alive b_recv_calls b_recvDone]. rewrite Hpc.
      repeat split; auto; try lia; try discriminate.
  - unfold recv_step in Hstep.
    destruct (b_recv_alive s) eqn:Halive; try discriminate.
    inversion Hstep; subst; clear Hstep.
    specialize (Hcalls eq_refl).
    unfold bidi_bounds, bidi_measure;
             cbn [b_pc b_err b_counter b_recv_alive b_recv_calls b_recvDone]. rewrite Halive.
    destruct (recv_err env (b_recv_calls s)) as [e |] eqn:E; cbn [is_nil].
    + repeat split; auto; try lia; try discriminate.
    + assert (b_recv_calls s <> k) by (intros Heq; rewrite Heq in E; auto).
      repeat split; auto; try lia; try discriminate.
Qed.

(** Unless the adapter has returned, one of the goroutines can step. *)
Lemma bidi_progress (w : Worker Message) (env : CallEnv)
  (input : slice Message) (k : nat) (t : thread) (s : bidi_state Message) :
  bidi_bounds env input k s ->
  b_pc s = SendLoop \/ b_pc s = AfterLoop ->
  thread_step w env input t s = None ->
  exists s', thread_step w env input (other_thread t) s = Some s'.
Proof.
  intros (Hc & Hnp & Hdone & Hcalls) Hpc Hnone.
  assert (Hmain : main_step w env input s = None -> b_recv_alive s = true).
  { unfold main_step. destruct Hpc as [Hpc | Hpc]; rewrite Hpc.
    - destruct (is_nil (b_err s)); [| discriminate].
      destruct (b_counter s =? len input); [discriminate |].
      destruct (index input (b_counter s)); discriminate.
    - rewrite Hdone. destruct (b_recv_alive s); [reflexivity |].
      rewrite andb_false_r. discriminate. }
  destruct t; cbn [thread_step other_thread] in *.
  - specialize (Hmain Hnone). unfold recv_step. rewrite Hmain. eauto.
  - unfold recv_step in Hnone.
    destruct (b_recv_alive s) eqn:Halive; [discriminate |].
    destruct (main_step w env input s) as [s' |] eqn:E; [eauto |].
    specialize (Hmain eq_refl). discriminate.
Qed.

(** When some receive fails, the adapter returns under every schedule,
    within the measure. *)
Lemma bidi_run_enough_fuel (w : Worker Message) (env : CallEnv)
  (input : slice Message) (k : nat) :
  len input <= max_int64 ->
  recv_err env k <> None ->
  forall fuel tick s,
    bidi_bounds env input k s ->
    (bidi_measure input k s <= fuel)%nat ->
    exists s',
      bidi_run w env input fuel tick s = Some s' /\ b_pc s' = BidiReturned.
Proof.
  intros Hmax Hk.
  induction fuel as [| fuel IH]; intros tick s Hb Hm.
  - destruct Hb as (Hc & Hnp & _).
    unfold bidi_measure in Hm. cbn [bidi_run].
    destruct (b_pc s) eqn:Hpc; try lia; try congruence.
    exists s. auto.
  - cbn [bidi_run].
    destruct (b_pc s) eqn:Hpc.
    3: exists s; auto.
    3: destruct Hb as (_ & Hnp & _); congruence.
    all: assert (Hactive : b_pc s = SendLoop \/ b_pc s = AfterLoop) by auto;
      assert (Hgo : forall t s1,
                 thread_step w env input t s = Some s1 ->
                 exists s',
                   bidi_run w env input fuel (S tick) s1 = Some s'
                   /\ b_pc s' = BidiReturned)
        by (intros t s1 Hstep;
            destruct (bidi_bounds_step w env input k t s s1 Hmax Hk Hb Hstep)
              as [Hb1 Hlt];
            apply IH; [exact Hb1 | lia]);
      destruct (thread_step w env input (schedule env tick) s)
        as [s1 |] eqn:E1; [exact (Hgo _ s1 E1) |];
      destruct (bidi_progress w env input k _ s Hb Hactive E1) as [s2 E2];
      rewrite E2; exact (Hgo _ s2 E2).
Qed.

Lemma bidi_reachable_no_panic (w : Worker Message) (env : CallEnv)
  (input : slice Message) (tr0 : trace Message) (s : bidi_state Message) :
  len input <= max_int64 ->
  bidi_reachable w env input tr0 s ->
  0 <= b_counter s <= len input /\ b_pc s <> BidiPanicked.
Proof.
  intros Hmax. induction 1 as [| t s s' _ [Hc Hnp] Hstep].
  - unfold bidi_init, len; cbn. split; [lia | discriminate].
  - destruct t; cbn [thread_step] in Hstep.
    + unfold main_step in Hstep.
      destruct (b_pc s) eqn:Hpc; try discriminate.
      * destruct (is_nil (b_err s)).
        -- destruct (Z.eqb_spec (b_counter s) (len input)) as [Heq | Hne].
           ++ inversion Hstep; subst; cbn. split; [lia | discriminate].
           ++ destruct (index_in_range input (b_counter s) ltac:(lia))
                as [payload Hp].
              rewrite Hp in Hstep. inversion Hstep; subst; cbn.
              rewrite wrap64_in_range
                by (unfold min_int64, max_int64 in *; lia).
              split; [lia | discriminate].
        -- inversion Hstep; subst; cbn. split; [lia | discriminate].
      * destruct (is_nil (b_err s) && negb (b_recvDone s));
          try discriminate.
        inversion Hstep; subst; cbn. split; [lia | discriminate].
    + unfold recv_step in Hstep.
      destruct (b_recv_alive s); try discriminate.
      inversion Hstep; subst; cbn. split; assumption.
Qed.


Lemma makeBidiRequest_no_panic (w : Worker Message) (env : CallEnv)
  (ctx : Context) (input : slice Message) (fuel : nat)
  (c : completion goerror) (tr : trace Message) :
  len input <= max_int64 ->
  makeBidiRequest w env ctx input fuel = Some (c, tr) ->
  c = Returned (invoke_err env).
Proof.
  intros Hmax. unfold makeBidiRequest.
  destruct (invoke_err env) as [e |]; cbn [is_nil negb].
  - intros H; inversion H; reflexivity.
  - destruct (is_nil_slice input || (len input =? 0)).
    + intros H; inversion H; reflexivity.
    + destruct (bidi_run w env input fuel 0 _) as [s |] eqn:Hrun;
        [| discriminate].
      destruct (bidi_run_reachable w env input _ fuel 0 _ s
                  (reach_init w env input _) Hrun) as [Hreach _].
      destruct (bidi_reachable_no_panic w env input _ s Hmax Hreach)
        as [_ Hnp].
      destruct (b_pc s) eqn:Hpc; intros H; inversion H;
        try reflexivity; contradiction.
Qed.

Lemma makeBidiRequest_enough_fuel (w : Worker Message) (env : CallEnv)
  (ctx : Context) (input : slice Message) (k fuel : nat) :
  len input <= max_int64 ->
  recv_err env k <> None ->
  (Z.to_nat (len input) + k + 3 <= fuel)%nat ->
  exists tr,
    makeBidiRequest w env ctx input fuel
    = Some (Returned (invoke_err env), tr).
Proof.
  intros Hmax Hk Hf. unfold makeBidiRequest.
  destruct (invoke_err env) as [e |]; cbn [is_nil negb]; [eauto |].
  destruct (is_nil_slice input || (len input =? 0)); [eauto |].
  destruct (bidi_run_enough_fuel w env input k Hmax Hk fuel 0
              (bidi_init [EvInvokeRpcBidiStream ctx (callOptions w)]))
    as (s' & -> & Hpc).
  - apply bidi_bounds_init.
  - unfold bidi_measure, bidi_init; cbn [b_pc b_counter b_recv_alive
                                          b_recv_calls]. lia.
  - rewrite Hpc. eauto.
Qed.


(** C8 (as amended).  In every interleaving of the adapter with its receive
    goroutine: while [err] is nil after the send loop and [recvDone] is not
    closed, the adapter cannot step (it is blocked in [<-recvDone]); and
    when the adapter has returned with [err] nil, that is after a send loop
    without a send failure, the receive goroutine has left its loop on a
    receive error (end of stream included).  After a failed send the
    adapter returns without waiting. *)
Theorem bidi_waits_for_receiver_unless_send_failed :
  forall (w : Worker Message) (env : CallEnv) (input : slice Message)
         (tr0 : trace Message) (s : bidi_state Message),
    bidi_reachable w env input tr0 s ->
    (b_pc s = AfterLoop -> b_err s = None -> b_recvDone s = false ->
     main_step w env input s = None)
    /\ (b_pc s = BidiReturned -> b_err s = None ->
        receive_task_finished env s)
    /\ (b_pc s = AfterLoop -> b_err s <> None ->
        exists s', main_step w env input s = Some s'
                   /\ b_pc s' = BidiReturned
                   /\ b_recv_alive s' = b_recv_alive s).
Proof.
  intros w env input tr0 s Hreach.
  destruct (bidi_reachable_inv w env input tr0 s Hreach)
    as (Hdone & Hfin & Hret).
  split; [| split].
  - intros Hpc Herr Hnd. unfold main_step.
    rewrite Hpc, Herr, Hnd. reflexivity.
  - intros Hpc Herr. apply Hfin.
    specialize (Hret Hpc Herr). rewrite Hret in Hdone.
    destruct (b_recv_alive s); [discriminate | reflexivity].
  - intros Hpc Herr. unfold main_step. rewrite Hpc.
    destruct (b_err s) as [e |]; [| congruence].
    cbn [is_nil andb]. eexists. split; [reflexivity |]. split; reflexivity.
Qed.

(** ** makeRequest *)

Lemma rpc_events_app (tr1 tr2 : trace Message) :
  rpc_events (tr1 ++ tr2) = rpc_events tr1 ++ rpc_events tr2.
Proof. apply filter_app. Qed.

Lemma rpc_events_log (b : bool) (msg : string) :
  rpc_events (@log_if Message b msg) = [].
Proof. destruct b; reflexivity. Qed.

(** [getMessages] changes nothing of the worker but the cache and does not
    touch the network. *)
Lemma getMessages_worker (w : Worker Message) (ctd : callTemplateData)
  (inputData : string) (w1 : Worker Message)
  (r : slice Message * goerror) (tr : trace Message) :
  getMessages C w ctd inputData = (w1, r, tr) ->
  mtd w1 = mtd w /\ config w1 = config w /\ workerID w1 = workerID w
  /\ rpc_events tr = [].
Proof.
  unfold getMessages.
  destruct (cachedMessages w); [intros H; inversion H; auto |].
  destruct (negb (binary (config w))).
  - destruct (executeData C ctd inputData) as [d [e |]];
      [intros H; inversion H; auto |].
    destruct (createPayloadsFromJSON C d (mtd w)) as [i [e |]];
      intros H; inversion H; auto.
  - destruct (createPayloadsFromBin C inputData (mtd w)) as [i [e |]];
      intros H; inversion H; auto.
Qed.

Lemma resolveInputs_worker (w : Worker Message) (reqNum : Z)
  (w1 : Worker Message) (r : slice Message * goerror) (tr : trace Message) :
  resolveInputs C w reqNum = Some (w1, r, tr) ->
  mtd w1 = mtd w /\ config w1 = config w /\ workerID w1 = workerID w
  /\ rpc_events tr = [].
Proof.
  unfold resolveInputs.
  destruct (negb (binary (config w)) && negb (IsClientStreaming (mtd w))
            && (0 <? len (arrayJSONData w))).
  - destruct (index (arrayJSONData w) _); [| discriminate].
    intros H; inversion H as [H1]. eapply getMessages_worker; eauto.
  - intros H; inversion H as [H1]. eapply getMessages_worker; eauto.
Qed.

(** C6 (as amended).  When the resolved payload set is empty,
    [makeRequest] returns an error without any call on the stub or on a
    stream: the no-payload error if the metadata template expands, and the
    error of the metadata template otherwise (the metadata is expanded
    before the payload set is tested). *)
Theorem makeRequest_empty_payload :
  forall (w : Worker Message) (reqNum : Z) (env : CallEnv) (fuel : nat)
         (w1 : Worker Message) (inputs : slice Message)
         (tr1 : trace Message),
    resolveInputs C w reqNum = Some (w1, (inputs, None), tr1) ->
    len inputs = 0 ->
    exists tr,
      makeRequest C w reqNum env fuel
      = Some (w1,
              Returned
                (Some
                   match
                     snd (executeMetadata C
                            (newCallTemplateData (mtd w) (workerID w) reqNum)
                            (metadata (config w1)))
                   with
                   | Some e => e
                   | None => errNoData
                   end),
              tr)
      /\ rpc_events tr = [].
Proof.
  intros w reqNum env fuel w1 inputs tr1 Hres Hlen.
  destruct (resolveInputs_worker w reqNum w1 _ tr1 Hres)
    as (_ & _ & _ & Htr1).
  unfold makeRequest. rewrite Hres.
  destruct (executeMetadata C _ (metadata (config w1))) as [mdMap [e |]];
    cbn [snd is_nil negb].
  - eexists. split; [reflexivity |].
    rewrite rpc_events_app, Htr1. reflexivity.
  - rewrite Hlen. cbn [Z.eqb].
    eexists. split; [reflexivity |].
    rewrite !rpc_events_app, Htr1, rpc_events_log. reflexivity.
Qed.

Lemma dispatch_returned (w : Worker Message) (env : CallEnv)
  (ctx : Context) (reqMD : MD) (inputs : slice Message)
  (unaryInput : Message) (fuel : nat) (c : completion goerror)
  (tr : trace Message) :
  len inputs <= max_int64 ->
  dispatch w env ctx reqMD inputs unaryInput fuel = Some (c, tr) ->
  exists r, c = Returned r.
Proof.
  intros Hmax. unfold dispatch.
  destruct (IsClientStreaming (mtd w) && IsServerStreaming (mtd w)).
  { intros H. apply makeBidiRequest_no_panic in H; eauto. }
  destruct (IsClientStreaming (mtd w)).
  { intros H.
    destruct (makeClientStreamingRequest_nil w env ctx inputs fuel Hmax)
      as [E | [tr' E]]; rewrite E in H; inversion H; eauto. }
  destruct (IsServerStreaming (mtd w)).
  { intros H.
    apply makeServerStreamingRequest_returns_open_error in H; eauto. }
  unfold makeUnaryRequest. intros H; inversion H; eauto.
Qed.

Lemma dispatch_enough_fuel (w : Worker Message) (env : CallEnv)
  (ctx : Context) (reqMD : MD) (inputs : slice Message)
  (unaryInput : Message) (k fuel : nat) :
  len inputs <= max_int64 ->
  (IsServerStreaming (mtd w) = true -> recv_err env k <> None) ->
  (Z.to_nat (len inputs) + k + 3 <= fuel)%nat ->
  exists r tr,
    dispatch w env ctx reqMD inputs unaryInput fuel = Some (Returned r, tr).
Proof.
  intros Hmax Hk Hf. unfold dispatch.
  destruct (IsClientStreaming (mtd w)) eqn:Hcs;
    destruct (IsServerStreaming (mtd w)) eqn:Hss; cbn [andb].
  - destruct (makeBidiRequest_enough_fuel w env ctx inputs k fuel Hmax
                (Hk eq_refl) Hf) as [tr ->]. eauto.
  - destruct (makeClientStreamingRequest_enough_fuel w env ctx inputs fuel
                Hmax ltac:(lia)) as [tr ->]. eauto.
  - destruct (makeServerStreamingRequest_enough_fuel w env ctx unaryInput
                k fuel (Hk eq_refl) ltac:(lia)) as [tr ->]. eauto.
  - unfold makeUnaryRequest. eauto.
Qed.

(** C10.  For a request with a sequence number n >= 1 whose payload set
    resolves to a non-empty list and whose metadata template expands,
    [makeRequest] returns nil whatever the stub and the stream answer, for
    every shape of the method: whenever it completes it has returned nil,
    and it does complete (with enough fuel) as soon as, for the shapes that
    receive in a loop, some receive reports an error or the end of the
    stream. *)
Theorem makeRequest_discards_call_outcome :
  forall (w : Worker Message) (reqNum : Z) (env : CallEnv)
         (w1 : Worker Message) (inputs : slice Message)
         (tr1 : trace Message) (mdMap : list (string * string)),
    1 <= reqNum <= max_int64 ->
    resolveInputs C w reqNum = Some (w1, (inputs, None), tr1) ->
    1 <= len inputs <= max_int64 ->
    executeMetadata C (newCallTemplateData (mtd w) (workerID w) reqNum)
      (metadata (config w1)) = (mdMap, None) ->
    (forall fuel w' c tr,
        makeRequest C w reqNum env fuel = Some (w', c, tr) ->
        w' = w1 /\ c = Returned None)
    /\ (forall k fuel,
           (IsServerStreaming (mtd w) = true -> recv_err env k <> None) ->
           (Z.to_nat (len inputs) + k + 3 <= fuel)%nat ->
           exists tr,
             makeRequest C w reqNum env fuel = Some (w1, Returned None, tr)).
Proof.
  intros w reqNum env w1 inputs tr1 mdMap Hn Hres Hlen Hmd.
  destruct (resolveInputs_worker w reqNum w1 _ tr1 Hres)
    as (Hmtd & _ & _ & _).
  destruct (selectInput_in_range inputs reqNum ltac:(lia) Hn)
    as [payload Hsel].
  assert (Hne : (len inputs =? 0) = false) by (apply Z.eqb_neq; lia).
  split.
  - intros fuel w' c tr. unfold makeRequest.
    rewrite Hres, Hmd. cbn [is_nil negb]. rewrite Hne, Hsel.
    destruct (dispatch w1 env _ _ inputs payload fuel)
      as [[c' tr4] |] eqn:Hd; [| discriminate].
    destruct (dispatch_returned w1 env _ _ inputs payload fuel c' tr4
                ltac:(lia) Hd) as [r ->].
    intros H; inversion H; auto.
  - intros k fuel Hk Hf. unfold makeRequest.
    rewrite Hres, Hmd. cbn [is_nil negb]. rewrite Hne, Hsel.
    rewrite <- Hmtd in Hk.
    edestruct (dispatch_enough_fuel w1 env) as (r & tr4 & ->);
      [| exact Hk | exact Hf | eauto]. lia.
Qed.

(** ** Payload rotation *)

Lemma makeServerStreamingRequest_first_event (w : Worker Message)
  (env : CallEnv) (ctx : Context) (input : Message) (fuel : nat)
  (c : completion goerror) (tr : trace Message) :
  makeServerStreamingRequest w env ctx input fuel = Some (c, tr) ->
  exists rest,
    tr = EvInvokeRpcServerStream ctx input (callOptions w) :: rest.
Proof.
  unfold makeServerStreamingRequest.
  destruct (is_nil (invoke_err env)).
  - destruct (serverStreamLoop w env fuel 0) as [[r tr'] |];
      intros H; inversion H; eexists; reflexivity.
  - intros H; inversion H; eexists; reflexivity.
Qed.

(** The trace of a request begins with what resolving its inputs did. *)
Lemma makeRequest_trace_prefix (w w1 w' : Worker Message) (reqNum : Z)
  (env : CallEnv) (fuel : nat) (r : slice Message * goerror)
  (tr1 tr : trace Message) (c : completion goerror) :
  resolveInputs C w reqNum = Some (w1, r, tr1) ->
  makeRequest C w reqNum env fuel = Some (w', c, tr) ->
  exists rest, tr = tr1 ++ rest.
Proof.
  intros Hres. unfold makeRequest. rewrite Hres.
  destruct r as [inputs [e1 |]].
  { intros H; inversion H. exists []. symmetry. apply app_nil_r. }
  destruct (executeMetadata C _ (metadata (config w1))) as [mdMap [e2 |]];
    cbn [is_nil negb].
  { intros H; inversion H. eexists. reflexivity. }
  destruct (len inputs =? 0).
  { intros H; inversion H. rewrite <- !app_assoc. eexists. reflexivity. }
  destruct (selectInput reqNum inputs) as [unaryInput |].
  - destruct (dispatch w1 env _ _ inputs unaryInput fuel)
      as [[[rr |] tr4] |]; [| | discriminate];
      intros H; inversion H; rewrite <- !app_assoc; eexists; reflexivity.
  - intros H; inversion H. rewrite <- !app_assoc. eexists. reflexivity.
Qed.

(** With a nil cache in JSON mode, [getMessages] begins by handing its
    input to the template engine. *)
Lemma getMessages_json_first_event (w w1 : Worker Message)
  (ctd : callTemplateData) (inputData : string)
  (r : slice Message * goerror) (tr : trace Message) :
  binary (config w) = false ->
  cachedMessages w = None ->
  getMessages C w ctd inputData = (w1, r, tr) ->
  exists rest, tr = EvExecuteData ctd inputData :: rest.
Proof.
  intros Hbin Hc. unfold getMessages. rewrite Hc, Hbin. cbn [negb].
  destruct (executeData C ctd inputData) as [d [e |]];
    [intros H; inversion H; eexists; reflexivity |].
  destruct (createPayloadsFromJSON C d (mtd w)) as [i [e |]];
    intros H; inversion H; eexists; reflexivity.
Qed.

(** C5.  For a payload rotation of size M >= 1 and a request sequence
    number n >= 1 (an int64), the index computed by [makeRequest] is
    (n - 1) mod M, it is in range, and the payload that [makeRequest]
    selects is the element at that index.  Sequence numbers 1..M select
    indices 0..M-1 in order and M+1 selects index 0 again.

    The selection is what [makeRequest] puts on the wire.  For a method
    that is not client-streaming, a request whose inputs resolve to the M
    messages [inputs] and whose metadata expands opens its call (InvokeRpc
    or InvokeRpcServerStream) with the element of [inputs] at index
    (n - 1) mod M, in every run that completes, and it does complete and
    return nil (for server streaming, once some receive reports an error).
    In JSON mode with a rotation of M JSON variants (lines 118-120), the
    inputs are resolved from the variant at index (n - 1) mod M, and with a
    nil cache that variant is the first thing [makeRequest] hands to the
    template engine.  (For client-streaming and bidirectional methods the
    element is selected as well, but the adapters are given the whole
    list.) *)
Theorem rotation_round_robin :
  forall (w : Worker Message) (inputs : slice Message) (n : Z),
    1 <= len inputs ->
    1 <= n <= max_int64 ->
    rotationIndex n (len inputs) = (n - 1) mod len inputs
    /\ selectInput n inputs
       = nth_error (elems inputs) (Z.to_nat ((n - 1) mod len inputs))
    /\ (exists payload, selectInput n inputs = Some payload)
    /\ (n <= len inputs -> rotationIndex n (len inputs) = n - 1)
    /\ (len inputs + 1 <= max_int64 ->
        rotationIndex (len inputs + 1) (len inputs) = 0)
    /\ (binary (config w) = false ->
        IsClientStreaming (mtd w) = false ->
        1 <= len (arrayJSONData w) ->
        exists d,
          nth_error (elems (arrayJSONData w))
            (Z.to_nat ((n - 1) mod len (arrayJSONData w))) = Some d
          /\ resolveInputs C w n
             = Some (getMessages C w
                       (newCallTemplateData (mtd w) (workerID w) n) d)
          /\ (cachedMessages w = None ->
              forall env fuel w' c tr,
                makeRequest C w n env fuel = Some (w', c, tr) ->
                exists rest,
                  tr = EvExecuteData
                         (newCallTemplateData (mtd w) (workerID w) n) d
                       :: rest))
    /\ (forall (env : CallEnv) (w1 : Worker Message) (tr1 : trace Message)
               (mdMap : list (string * string)),
           IsClientStreaming (mtd w) = false ->
           resolveInputs C w n = Some (w1, (inputs, None), tr1) ->
           executeMetadata C (newCallTemplateData (mtd w) (workerID w) n)
             (metadata (config w1)) = (mdMap, None) ->
           exists payload,
             nth_error (elems inputs) (Z.to_nat ((n - 1) mod len inputs))
             = Some payload
             /\ (forall fuel w' c tr,
                    makeRequest C w n env fuel = Some (w', c, tr) ->
                    exists rest,
                      rpc_events tr
                      = (if IsServerStreaming (mtd w)
                         then EvInvokeRpcServerStream
                                (requestContext w1 (requestMD w1 mdMap))
                                payload (callOptions w1)
                         else EvInvokeRpc
                                (requestContext w1 (requestMD w1 mdMap))
                                payload (callOptions w1))
                        :: rest)
             /\ (forall k fuel,
                    (IsServerStreaming (mtd w) = true ->
                     recv_err env k <> None) ->
                    (k < fuel)%nat ->
                    exists tr,
                      makeRequest C w n env fuel
                      = Some (w1, Returned None, tr))).
Proof.
  intros w inputs n HM Hn.
  pose proof (rotationIndex_mod n (len inputs) HM Hn) as Hidx.
  pose proof (rotationIndex_bounds n (len inputs) HM Hn) as Hb.
  assert (Hsel : selectInput n inputs
                 = nth_error (elems inputs)
                     (Z.to_nat ((n - 1) mod len inputs))).
  { unfold selectInput, index. rewrite Hidx in *.
    destruct (Z.ltb_spec ((n - 1) mod len inputs) 0); [lia | reflexivity]. }
  split; [exact Hidx |].
  split; [exact Hsel |].
  split.
  { apply selectInput_in_range; assumption. }
  split.
  { intros Hle. rewrite Hidx. apply Z.mod_small. lia. }
  split.
  { intros Hmax. rewrite rotationIndex_mod by lia.
    replace (len inputs + 1 - 1) with (len inputs) by lia.
    apply Z.mod_same. lia. }
  split.
  { intros Hbin Hcs HJ.
    pose proof (rotationIndex_mod n _ HJ Hn) as HidxJ.
    pose proof (rotationIndex_bounds n _ HJ Hn) as HbJ.
    destruct (index_in_range (arrayJSONData w) _ HbJ) as [d Hd].
    assert (Hres : resolveInputs C w n
                   = Some (getMessages C w
                             (newCallTemplateData (mtd w) (workerID w) n) d)).
    { unfold resolveInputs. rewrite Hbin, Hcs. simpl.
      destruct (Z.ltb_spec 0 (len (arrayJSONData w))); [| lia].
      rewrite Hd. reflexivity. }
    exists d. split; [| split; [exact Hres |]].
    - unfold index in Hd. rewrite HidxJ in Hd.
      destruct (Z.ltb_spec ((n - 1) mod len (arrayJSONData w)) 0);
        [lia | exact Hd].
    - intros Hcache env fuel w' c tr Hreq.
      destruct (getMessages C w
                  (newCallTemplateData (mtd w) (workerID w) n) d)
        as [[w1 r] tr1] eqn:Hget.
      destruct (getMessages_json_first_event w w1 _ d r tr1 Hbin Hcache Hget)
        as [rest1 ->].
      destruct (makeRequest_trace_prefix w w1 w' n env fuel r _ tr c
                  Hres Hreq) as [rest2 ->].
      eexists. reflexivity. }
  intros env w1 tr1 mdMap Hcs Hres Hmd.
  destruct (resolveInputs_worker w n w1 _ tr1 Hres)
    as (Hmtd & _ & _ & Htr1).
  destruct (selectInput_in_range inputs n HM Hn) as [payload Hpay].
  exists payload.
  split; [rewrite <- Hsel; exact Hpay |].
  assert (Hne : (len inputs =? 0) = false) by (apply Z.eqb_neq; lia).
  split.
  - intros fuel w' c tr. unfold makeRequest.
    rewrite Hres, Hmd. cbn [is_nil negb]. rewrite Hne, Hpay.
    unfold dispatch. rewrite Hmtd, Hcs. cbn [andb].
    destruct (IsServerStreaming (mtd w)).
    + destruct (makeServerStreamingRequest w1 env _ payload fuel)
        as [[c4 tr4] |] eqn:Hd; [| discriminate].
      destruct (makeServerStreamingRequest_first_event w1 env _ payload fuel
                  c4 tr4 Hd) as [rest4 ->].
      destruct c4; intros H; inversion H; subst;
        rewrite !rpc_events_app, Htr1, rpc_events_log;
        eexists; reflexivity.
    + unfold makeUnaryRequest. intros H; inversion H; subst.
      rewrite !rpc_events_app, Htr1, rpc_events_log.
      eexists. reflexivity.
  - intros k fuel Hk Hf. unfold makeRequest.
    rewrite Hres, Hmd. cbn [is_nil negb]. rewrite Hne, Hpay.
    unfold dispatch. rewrite Hmtd, Hcs. cbn [andb].
    destruct (IsServerStreaming (mtd w)).
    + destruct (makeServerStreamingRequest_enough_fuel w1 env
                  (requestContext w1 (requestMD w1 mdMap)) payload k fuel
                  (Hk eq_refl) Hf) as [tr4 ->].
      eexists. reflexivity.
    + unfold makeUnaryRequest. eexists. reflexivity.
Qed.

(** ** runWorker *)

(** A ready [done] channel makes the loop return nil, whatever has been
    accumulated in [err]. *)
Lemma runWorkerLoop_done (lenv : LoopEnv) (cond : ConditionChecker)
  (stopOnCond : bool) (fuel pass : nat) (st : loop_state Message) :
  done_ready lenv pass = true ->
  runWorkerLoop C lenv cond stopOnCond (S fuel) pass st
  = Some (Returned None, st).
Proof.
  intros Hd. cbn [runWorkerLoop]. rewrite Hd. reflexivity.
Qed.

(** The [rErr] handed to the condition never changes. *)
Lemma runWorkerLoop_rErr (lenv : LoopEnv) (cond : ConditionChecker)
  (stopOnCond : bool) :
  forall fuel pass (st st' : loop_state Message) c,
    runWorkerLoop C lenv cond stopOnCond fuel pass st = Some (c, st') ->
    l_rErr st' = l_rErr st.
Proof.
  induction fuel as [| fuel IH]; intros pass st st' c H.
  - discriminate.
  - cbn [runWorkerLoop] in H.
    destruct (done_ready lenv pass); [inversion H; reflexivity |].
    destruct (cond _ _ _ _).
    + destruct (makeRequest C _ _ _ fuel) as [[[w' [r |]] tr'] |];
        try discriminate.
      * apply IH in H. exact H.
      * inversion H; reflexivity.
    + destruct stopOnCond; [inversion H; reflexivity |].
      apply IH in H. exact H.
Qed.

End Properties.

(** * The properties on concrete runs *)

(** ** runWorker *)

(** C1.  A worker whose payload is empty issues request 1, which fails with
    the no-payload error; the error is merged into [err].  [done] is ready
    at the next pass: [runWorker] returns nil, not the accumulated error.
    The same run stopped by the condition instead ([stopOnCond]) returns the
    accumulated error. *)
Theorem runWorker_done_drops_accumulated_error :
  (exists st,
      runWorker demoCollaborators (demoWorker false false false "" "") 0
        (demoLoopEnv 1) condAlways false 5
      = Some (Returned None, st)
      /\ l_n st = 1
      /\ l_err st = Some errNoData)
  /\ (exists st,
         runWorker demoCollaborators (demoWorker false false false "" "") 0
           (demoLoopEnv 9) condOnce true 5
         = Some (Returned (Some errNoData), st)
         /\ l_n st = 1
         /\ l_err st = Some errNoData).
Proof.
  split; eexists; (split; [vm_compute; reflexivity | split; reflexivity]).
Qed.

(** C2.  In the same run the condition is evaluated twice: before request 1
    and, after request 1 has failed with the no-payload error, once more
    with request count 1.  Its second argument is nil both times. *)
Theorem runWorker_cond_never_sees_request_error :
  exists st,
    runWorker demoCollaborators (demoWorker false false false "" "") 0
      (demoLoopEnv 2) condOnce false 5
    = Some (Returned None, st)
    /\ l_err st = Some errNoData
    /\ filter is_cond_event (l_trace st)
       = [EvCond "g0c0" None 0 0; EvCond "g0c0" None 1 1].
Proof.
  eexists. split; [vm_compute; reflexivity | split; reflexivity].
Qed.

(** ** Server streaming *)

(** C4.  The stream opens, and the first receive fails with a status that
    is not the end of the stream.  The loop ends with that error in its own
    [err]; the adapter returns nil. *)
Theorem makeServerStreamingRequest_drops_receive_error :
  recv_err envRecvFails 0 = Some (rpcError 4)
  /\ serverStreamLoop (demoWorker false true false "x" "") envRecvFails 5 0
     = Some (Some (rpcError 4), [EvRecvMsg])
  /\ makeServerStreamingRequest (demoWorker false true false "x" "")
       envRecvFails demoContext 7%nat 5
     = Some (Returned None,
             [EvInvokeRpcServerStream demoContext 7%nat []; EvRecvMsg]).
Proof.
  repeat split.
Qed.

(** ** Bidirectional streaming *)



(** C8, as stated, fails: after the failed send the adapter returns while
    the receive goroutine is still in its loop. *)
Lemma bidi_returns_before_receiver :
  ~ bidi_returns_after_receiver (demoWorker true true false "x" "")
      envSendFails (Some [7%nat]) [].
Proof.
  intros H.
  destruct (bidi_run_reachable (demoWorker true true false "x" "")
              envSendFails (Some [7%nat]) [] 5 0 (bidi_init [])
              {| b_pc := BidiReturned; b_err := Some (rpcError 14);
                 b_counter := 1; b_recv_alive := true;
                 b_recv_calls := 0; b_recvDone := false;
                 b_trace := [EvSendMsg 7%nat] |}
              (reach_init _ _ _ _) eq_refl) as [Hreach _].
  destruct (H _ Hreach eq_refl) as [Halive _].
  discriminate Halive.
Qed.

Lemma bidi_waits_for_receiver_witness :
  exists s,
    bidi_reachable (demoWorker true true false "x" "") envOK
      (Some [7%nat]) [] s
    /\ b_pc s = BidiReturned
    /\ b_err s = None
    /\ receive_task_finished envOK s.
Proof.
  destruct (bidi_run_reachable (demoWorker true true false "x" "")
              envOK (Some [7%nat]) [] 5 0 (bidi_init [])
              {| b_pc := BidiReturned; b_err := None;
                 b_counter := 1; b_recv_alive := false;
                 b_recv_calls := 1; b_recvDone := true;
                 b_trace := [EvSendMsg 7%nat; EvCloseSend; EvRecvMsg] |}
              (reach_init _ _ _ _) eq_refl) as [Hreach _].
  eexists. split; [exact Hreach |].
  split; [reflexivity |]. split; [reflexivity |].
  exact (proj1 (proj2
           (bidi_waits_for_receiver_unless_send_failed _ _ _ _ _ Hreach))
           eq_refl eq_refl).
Defined.

(** ** Payload rotation, cache and client streaming *)

Lemma rotation_round_robin_witness :
  1 <= len (Some [3; 4]%nat)
  /\ 1 <= 6 <= max_int64
  /\ rotationIndex 6 (len (Some [3; 4]%nat)) = 1
  /\ selectInput 6 (Some [3; 4]%nat) = Some 4%nat
  /\ resolveInputs pairCollaborators (demoWorker false true false "abc" "") 6
     = Some (demoWorker false true false "abc" "", (Some [3; 4]%nat, None),
             [EvExecuteData
                (newCallTemplateData (demoMethod false true) "g0c0" 6) "abc";
              EvCreatePayloadsFromJSON "abc"])
  /\ exists payload,
       nth_error [3; 4]%nat (Z.to_nat ((6 - 1) mod len (Some [3; 4]%nat)))
       = Some payload
       /\ (forall fuel w' c tr,
              makeRequest pairCollaborators
                (demoWorker false true false "abc" "") 6 envRecvFails fuel
              = Some (w', c, tr) ->
              exists rest,
                rpc_events tr
                = EvInvokeRpcServerStream
                    (requestContext (demoWorker false true false "abc" "")
                       (requestMD (demoWorker false true false "abc" "") []))
                    payload
                    (callOptions (demoWorker false true false "abc" ""))
                  :: rest)
       /\ (forall k fuel,
              (IsServerStreaming
                 (mtd (demoWorker false true false "abc" "")) = true ->
               recv_err envRecvFails k <> None) ->
              (k < fuel)%nat ->
              exists tr,
                makeRequest pairCollaborators
                  (demoWorker false true false "abc" "") 6 envRecvFails fuel
                = Some (demoWorker false true false "abc" "",
                        Returned None, tr)).
Proof.
  assert (HM : 1 <= len (Some [3; 4]%nat)) by (vm_compute; discriminate).
  assert (Hn : 1 <= 6 <= max_int64) by (vm_compute; split; discriminate).
  split; [exact HM |]. split; [exact Hn |].
  destruct (rotation_round_robin pairCollaborators
              (demoWorker false true false "abc" "")
              (Some [3; 4]%nat) 6 HM Hn)
    as (Hidx & Hsel & _ & _ & _ & _ & Hcall).
  split; [exact Hidx |]. split; [exact Hsel |]. split; [reflexivity |].
  exact (Hcall envRecvFails (demoWorker false true false "abc" "") _ []
           eq_refl eq_refl eq_refl).
Defined.

Lemma getMessages_cache_stable_witness :
  cachedMessages cachedWorker = Some [1; 2]%nat
  /\ getMessagesSeq demoCollaborators cachedWorker
       [(demoCtd 1, "a"%string); (demoCtd 2, "b"%string)]
     = (cachedWorker,
        [(Some [1; 2]%nat, None); (Some [1; 2]%nat, None)], []).
Proof.
  split; [reflexivity |].
  exact (proj1 (getMessages_cache_stable demoCollaborators cachedWorker
                  [1; 2]%nat)
           [(demoCtd 1, "a"%string); (demoCtd 2, "b"%string)] eq_refl).
Defined.

Lemma clientStreaming_empty_input_witness :
  invoke_err envOK = None
  /\ len (@None (list nat)) = 0
  /\ exists tr,
       makeClientStreamingRequest (demoWorker true false false "" "") envOK
         demoContext None 1
       = Some (Returned None, tr)
       /\ rpc_events tr
          = [EvInvokeRpcClientStream demoContext []; EvCloseAndReceive]
       /\ filter is_send_event tr = [].
Proof.
  split; [reflexivity |]. split; [reflexivity |].
  exact (clientStreaming_empty_input (demoWorker true false false "" "")
           envOK demoContext None 0 eq_refl eq_refl).
Defined.

(** ** makeRequest *)

(** C6, as stated, fails: the payload set is empty and the metadata
    template is malformed; the error returned is the one of the template. *)
Lemma empty_payload_with_bad_metadata :
  ~ empty_payload_gives_no_data demoCollaborators
      (demoWorker false false false "" "{{") 1 envOK 5.
Proof.
  intros H.
  destruct (H (demoWorker false false false "" "{{") None
              [EvExecuteData
                 (newCallTemplateData (demoMethod false false) "g0c0" 1) "";
               EvCreatePayloadsFromJSON ""]
              eq_refl eq_refl) as (tr & Hreq & _).
  vm_compute in Hreq. discriminate Hreq.
Qed.

Lemma makeRequest_empty_payload_witness :
  resolveInputs demoCollaborators (demoWorker false false false "" "") 1
  = Some (demoWorker false false false "" "", (None, None),
          [EvExecuteData
             (newCallTemplateData (demoMethod false false) "g0c0" 1) "";
           EvCreatePayloadsFromJSON ""])
  /\ len (@None (list nat)) = 0
  /\ exists tr,
       makeRequest demoCollaborators (demoWorker false false false "" "") 1
         envOK 5
       = Some (demoWorker false false false "" "",
               Returned (Some errNoData), tr)
       /\ rpc_events tr = [].
Proof.
  split; [reflexivity |]. split; [reflexivity |].
  exact (makeRequest_empty_payload demoCollaborators
           (demoWorker false false false "" "") 1 envOK 5
           (demoWorker false false false "" "") None _ eq_refl eq_refl).
Defined.

Lemma makeRequest_discards_call_outcome_witness :
  1 <= 1 <= max_int64
  /\ 1 <= len (Some [1%nat]) <= max_int64
  /\ invoke_err envOpenFails = Some (rpcError 14)
  /\ exists tr,
       makeRequest demoCollaborators (demoWorker false false false "x" "") 1
         envOpenFails 4
       = Some (demoWorker false false false "x" "", Returned None, tr).
Proof.
  assert (Hn : 1 <= 1 <= max_int64) by (vm_compute; split; discriminate).
  assert (Hl : 1 <= len (Some [1%nat]) <= max_int64)
    by (vm_compute; split; discriminate).
  split; [exact Hn |]. split; [exact Hl |]. split; [reflexivity |].
  refine (proj2 (makeRequest_discards_call_outcome demoCollaborators
                   (demoWorker false false false "x" "") 1 envOpenFails
                   (demoWorker false false false "x" "") (Some [1%nat])
                   _ [] Hn eq_refl Hl eq_refl) 0%nat 4%nat _ _).
  - intros Hss. discriminate Hss.
  - vm_compute. repeat constructor.
Defined.

(** * Further behaviour of the worker *)

Lemma wrap64_range (z : Z) : min_int64 <= wrap64 z <= max_int64.
Proof.
  unfold wrap64, min_int64, max_int64.
  pose proof (Z.mod_pos_bound (z + 2 ^ 63) (2 ^ 64) ltac:(lia)). lia.
Qed.

Lemma wrap64_add_l (x y : Z) : wrap64 (wrap64 x + y) = wrap64 (x + y).
Proof.
  unfold wrap64.
  replace ((x + 2 ^ 63) mod 2 ^ 64 - 2 ^ 63 + y + 2 ^ 63)
    with ((x + 2 ^ 63) mod 2 ^ 64 + y) by lia.
  rewrite Zplus_mod_idemp_l.
  replace (x + 2 ^ 63 + y) with (x + y + 2 ^ 63) by lia.
  reflexivity.
Qed.

Lemma skipn_nth_error {A} (l : list A) (c : nat) (x : A) :
  nth_error l c = Some x -> skipn c l = x :: skipn (S c) l.
Proof.
  revert c. induction l as [| a l IH]; intros [| c] H; cbn in *;
    try discriminate.
  - inversion H; reflexivity.
  - apply IH. exact H.
Qed.

Lemma firstn_nth_error {A} (l : list A) (c : nat) (x : A) :
  nth_error l c = Some x -> firstn (S c) l = firstn c l ++ [x].
Proof.
  revert c. induction l as [| a l IH]; intros [| c] H; cbn in *;
    try discriminate.
  - inversion H; reflexivity.
  - f_equal. apply IH. exact H.
Qed.

Lemma index_nth_error {A} (s : slice A) (c : nat) :
  index s (Z.of_nat c) = nth_error (elems s) c.
Proof.
  unfold index. destruct (Z.ltb_spec (Z.of_nat c) 0); [lia |].
  rewrite Nat2Z.id. reflexivity.
Qed.

Lemma bump_succ (z : Z) (m : nat) :
  bump (wrap64 (z + 1)) m = bump z (S m).
Proof.
  destruct m as [| m]; cbn [bump]; [f_equal; lia |].
  rewrite wrap64_add_l. f_equal. lia.
Qed.

Lemma bump_in_range (z : Z) (m : nat) :
  min_int64 <= z <= max_int64 -> bump z m = wrap64 (z + Z.of_nat m).
Proof.
  intros Hz. destruct m as [| m]; cbn [bump]; [| reflexivity].
  rewrite Z.add_0_r. symmetry. apply wrap64_in_range. exact Hz.
Qed.

Section Behaviour.

Context {Message : Type} (C : Collaborators Message).

(** ** getMessages *)

(** X1.  In JSON mode (binary = false) no sequence of [getMessages] calls
    changes the worker: decoded JSON payloads are never cached. *)
Theorem getMessages_json_never_caches :
  forall (w : Worker Message) (calls : list (callTemplateData * string)),
    binary (config w) = false ->
    fst (fst (getMessagesSeq C w calls)) = w.
Proof.
  intros w calls Hbin. induction calls as [| [ctd inputData] rest IH].
  - reflexivity.
  - cbn [getMessagesSeq].
    assert (Hw : fst (fst (getMessages C w ctd inputData)) = w).
    { unfold getMessages. rewrite Hbin. cbn [negb].
      destruct (cachedMessages w); [reflexivity |].
      destruct (executeData C ctd inputData) as [d [e |]]; [reflexivity |].
      destruct (createPayloadsFromJSON C d (mtd w)) as [i [e |]];
        reflexivity. }
    destruct (getMessages C w ctd inputData) as [[w1 r] tr1].
    cbn [fst] in Hw. subst w1.
    destruct (getMessagesSeq C w rest) as [[w2 rs] tr2].
    exact IH.
Qed.

(** X2.  When [getMessages] returns an error, the slice it returns is nil
    and the worker is unchanged; in particular a decoding that fails does
    not populate the cache. *)
Theorem getMessages_error_leaves_worker :
  forall (w w1 : Worker Message) (ctd : callTemplateData)
         (inputData : string) (inputs : slice Message) (e : error)
         (tr : trace Message),
    getMessages C w ctd inputData = (w1, (inputs, Some e), tr) ->
    w1 = w /\ inputs = None.
Proof.
  intros w w1 ctd inputData inputs e tr. unfold getMessages.
  destruct (cachedMessages w); [intros H; inversion H |].
  destruct (negb (binary (config w))).
  - destruct (executeData C ctd inputData) as [d [e1 |]];
      [intros H; inversion H; auto |].
    destruct (createPayloadsFromJSON C d (mtd w)) as [i [e2 |]];
      intros H; inversion H; auto.
  - destruct (createPayloadsFromBin C inputData (mtd w)) as [i [e2 |]];
      intros H; inversion H; auto.
Qed.

(** ** makeRequest *)

(** X3.  Whenever [makeRequest] returns an error, nothing was called on the
    stub or on a stream: the only errors it returns are those of payload
    resolution, of the metadata template and the no-payload error, all
    raised before the call is dispatched. *)
Theorem makeRequest_error_means_no_call :
  forall (w w' : Worker Message) (reqNum : Z) (env : CallEnv) (fuel : nat)
         (e : error) (tr : trace Message),
    makeRequest C w reqNum env fuel = Some (w', Returned (Some e), tr) ->
    rpc_events tr = [].
Proof.
  intros w w' reqNum env fuel e tr. unfold makeRequest.
  destruct (resolveInputs C w reqNum) as [[[w1 [inputs err1]] tr1] |] eqn:Hres;
    [| discriminate].
  destruct (resolveInputs_worker C w reqNum w1 _ tr1 Hres)
    as (_ & _ & _ & Htr1).
  destruct err1 as [e1 |]; [intros H; inversion H; subst; exact Htr1 |].
  destruct (executeMetadata C _ (metadata (config w1))) as [mdMap [e2 |]];
    cbn [is_nil negb].
  - intros H; inversion H; subst.
    rewrite rpc_events_app, Htr1. reflexivity.
  - destruct (len inputs =? 0).
    + intros H; inversion H; subst.
      rewrite !rpc_events_app, Htr1, rpc_events_log. reflexivity.
    + destruct (selectInput reqNum inputs) as [unaryInput |];
        [| discriminate].
      destruct (dispatch w1 env _ _ inputs unaryInput fuel)
        as [[[r |] tr4] |]; discriminate.
Qed.

(** X4.  For a unary method, a sequence number n >= 1, a payload set that
    resolves to M >= 1 messages and metadata that expands, [makeRequest]
    calls the stub exactly once, with the payload at index (n - 1) mod M
    and the context carrying the request metadata, and returns nil whether
    or not that call fails. *)
Theorem makeRequest_unary_single_call :
  forall (w w1 : Worker Message) (reqNum : Z) (env : CallEnv) (fuel : nat)
         (inputs : slice Message) (tr1 : trace Message)
         (mdMap : list (string * string)),
    IsClientStreaming (mtd w) = false ->
    IsServerStreaming (mtd w) = false ->
    1 <= reqNum <= max_int64 ->
    resolveInputs C w reqNum = Some (w1, (inputs, None), tr1) ->
    1 <= len inputs ->
    executeMetadata C (newCallTemplateData (mtd w) (workerID w) reqNum)
      (metadata (config w1)) = (mdMap, None) ->
    exists payload tr,
      nth_error (elems inputs) (Z.to_nat ((reqNum - 1) mod len inputs))
      = Some payload
      /\ makeRequest C w reqNum env fuel = Some (w1, Returned None, tr)
      /\ rpc_events tr
         = [EvInvokeRpc (requestContext w1 (requestMD w1 mdMap)) payload
              (callOptions w1)].
Proof.
  intros w w1 reqNum env fuel inputs tr1 mdMap Hcs Hss Hn Hres Hlen Hmd.
  destruct (resolveInputs_worker C w reqNum w1 _ tr1 Hres)
    as (Hmtd & _ & _ & Htr1).
  destruct (selectInput_in_range inputs reqNum Hlen Hn) as [payload Hsel].
  exists payload. eexists. split.
  { rewrite <- Hsel. unfold selectInput, index.
    rewrite rotationIndex_mod by assumption.
    destruct (Z.ltb_spec ((reqNum - 1) mod len inputs) 0); [| reflexivity].
    pose proof (Z.mod_pos_bound (reqNum - 1) (len inputs) ltac:(lia)). lia. }
  unfold makeRequest. rewrite Hres, Hmd. cbn [is_nil negb].
  replace (len inputs =? 0) with false by (symmetry; apply Z.eqb_neq; lia).
  rewrite Hsel. unfold dispatch. rewrite Hmtd, Hcs, Hss. cbn [andb].
  unfold makeUnaryRequest. split; [reflexivity |].
  rewrite !rpc_events_app, Htr1, rpc_events_log.
  destruct (hasLog (config w1)); reflexivity.
Qed.

(** X5.  A sequence number n <= 0 (above the least int64) makes
    [inputs[inputIdx]] panic whenever n - 1 is not a multiple of the number
    of payloads: Go's [%] keeps the sign of the dividend, so the index is
    negative.  The panic comes before any call on the network. *)
Theorem makeRequest_nonpositive_sequence_number_panics :
  forall (w w1 : Worker Message) (reqNum : Z) (env : CallEnv) (fuel : nat)
         (inputs : slice Message) (tr1 : trace Message)
         (mdMap : list (string * string)),
    min_int64 < reqNum <= 0 ->
    resolveInputs C w reqNum = Some (w1, (inputs, None), tr1) ->
    1 <= len inputs ->
    Z.rem (reqNum - 1) (len inputs) <> 0 ->
    executeMetadata C (newCallTemplateData (mtd w) (workerID w) reqNum)
      (metadata (config w1)) = (mdMap, None) ->
    exists tr,
      makeRequest C w reqNum env fuel = Some (w1, Panicked, tr)
      /\ rpc_events tr = [].
Proof.
  intros w w1 reqNum env fuel inputs tr1 mdMap Hn Hres Hlen Hrem Hmd.
  destruct (resolveInputs_worker C w reqNum w1 _ tr1 Hres)
    as (_ & _ & _ & Htr1).
  assert (Hidx : rotationIndex reqNum (len inputs) < 0).
  { unfold rotationIndex, go_rem.
    rewrite (wrap64_in_range (reqNum - 1))
      by (unfold min_int64, max_int64 in *; lia).
    assert (Hopp : Z.rem (reqNum - 1) (len inputs)
                   = - Z.rem (1 - reqNum) (len inputs)).
    { rewrite <- Z.rem_opp_l by lia. f_equal. lia. }
    pose proof (Z.rem_bound_pos (1 - reqNum) (len inputs)
                  ltac:(lia) ltac:(lia)) as Hb.
    pose proof (Z.rem_le (1 - reqNum) (len inputs)
                  ltac:(lia) ltac:(lia)) as Hle.
    rewrite wrap64_in_range; unfold min_int64, max_int64 in *; lia. }
  unfold makeRequest. rewrite Hres, Hmd. cbn [is_nil negb].
  replace (len inputs =? 0) with false by (symmetry; apply Z.eqb_neq; lia).
  unfold selectInput, index.
  destruct (Z.ltb_spec (rotationIndex reqNum (len inputs)) 0); [| lia].
  eexists. split; [reflexivity |].
  rewrite !rpc_events_app, Htr1, rpc_events_log. reflexivity.
Qed.

(** ** Client streaming *)

Lemma rpc_events_wait (w : Worker Message) :
  rpc_events (wait_interval w) = [].
Proof.
  unfold wait_interval. destruct (0 <? streamInterval (config w)); reflexivity.
Qed.

Lemma rpc_events_closeAndReceive (w : Worker Message) :
  rpc_events (closeAndReceive w) = [EvCloseAndReceive].
Proof.
  unfold closeAndReceive. destruct (hasLog (config w)); reflexivity.
Qed.

Lemma rpc_events_closeSend (w : Worker Message) :
  rpc_events (closeSend w) = [EvCloseSend].
Proof.
  unfold closeSend. destruct (hasLog (config w)); reflexivity.
Qed.

Lemma rpc_events_send (w : Worker Message) (payload : Message)
  (tr : trace Message) :
  rpc_events ((wait_interval w
               ++ EvSendMsg payload
               :: log_if (hasLog (config w)) "Send message") ++ tr)
  = EvSendMsg payload :: rpc_events tr.
Proof.
  rewrite !rpc_events_app, rpc_events_wait.
  destruct (hasLog (config w)); reflexivity.
Qed.

Lemma empty_test_length (input : slice Message) :
  is_nil_slice input || (len input =? 0) = true ->
  elems input = [].
Proof.
  destruct input as [l |]; cbn; [| reflexivity].
  unfold len; cbn. destruct l; [reflexivity | discriminate].
Qed.

Lemma empty_test_false (input : slice Message) :
  is_nil_slice input || (len input =? 0) = false ->
  (0 < List.length (elems input))%nat.
Proof.
  destruct input as [l |]; cbn; [| discriminate].
  unfold len; cbn. destruct l; [discriminate | cbn; lia].
Qed.

Lemma clientStreamLoop_all_sent (w : Worker Message) (env : CallEnv)
  (input : slice Message) :
  len input <= max_int64 ->
  forall fuel c,
    (c <= List.length (elems input))%nat ->
    (List.length (elems input) - c < fuel)%nat ->
    (forall j, (c <= j < List.length (elems input))%nat ->
               send_err env j = None) ->
    exists tr,
      clientStreamLoop w env input fuel (Z.of_nat c)
      = Some (Returned None, tr)
      /\ rpc_events tr
         = map EvSendMsg (skipn c (elems input)) ++ [EvCloseAndReceive].
Proof.
  intros Hmax. induction fuel as [| fuel IH]; intros c Hc Hf Hsend; [lia |].
  cbn [clientStreamLoop].
  destruct (is_nil_slice input || (len input =? 0)) eqn:Hempty.
  { apply empty_test_length in Hempty. rewrite Hempty in *.
    rewrite skipn_nil. eexists. split; [reflexivity |].
    apply rpc_events_closeAndReceive. }
  unfold len at 1.
  destruct (Z.eqb_spec (Z.of_nat c) (Z.of_nat (List.length (elems input))))
    as [Heq | Hne].
  { apply Nat2Z.inj in Heq. subst c. rewrite skipn_all.
    eexists. split; [reflexivity |]. apply rpc_events_closeAndReceive. }
  assert (Hlt : (c < List.length (elems input))%nat) by lia.
  rewrite index_nth_error.
  destruct (nth_error (elems input) c) as [payload |] eqn:Hp;
    [| apply nth_error_None in Hp; lia].
  rewrite Nat2Z.id, (Hsend c) by lia. cbn [is_EOF is_nil].
  assert (Hw : wrap64 (Z.of_nat c + 1) = Z.of_nat (S c)).
  { rewrite wrap64_in_range; unfold len, min_int64, max_int64 in *; lia. }
  rewrite Hw.
  destruct (IH (S c) ltac:(lia) ltac:(lia)) as (tr & -> & Htr).
  { intros j Hj. apply Hsend. lia. }
  cbn [andThen]. eexists. split; [reflexivity |].
  rewrite rpc_events_send, Htr, (skipn_nth_error _ _ _ Hp). reflexivity.
Qed.

Lemma clientStreamLoop_send_fails (w : Worker Message) (env : CallEnv)
  (input : slice Message) (i : nat) (e : error) :
  len input <= max_int64 ->
  (i < List.length (elems input))%nat ->
  send_err env i = Some e ->
  forall fuel c,
    (c <= i)%nat ->
    (i - c < fuel)%nat ->
    (forall j, (c <= j < i)%nat -> send_err env j = None) ->
    exists tr,
      clientStreamLoop w env input fuel (Z.of_nat c)
      = Some (Returned (Some e), tr)
      /\ rpc_events tr
         = map EvSendMsg (firstn (S i - c) (skipn c (elems input)))
           ++ (if is_EOF (Some e) then [EvCloseAndReceive] else []).
Proof.
  intros Hmax Hi He.
  induction fuel as [| fuel IH]; intros c Hc Hf Hsend; [lia |].
  cbn [clientStreamLoop].
  destruct (is_nil_slice input || (len input =? 0)) eqn:Hempty.
  { apply empty_test_length in Hempty. rewrite Hempty in Hi. cbn in Hi. lia. }
  unfold len at 1.
  destruct (Z.eqb_spec (Z.of_nat c) (Z.of_nat (List.length (elems input))))
    as [Heq | Hne]; [lia |].
  rewrite index_nth_error.
  destruct (nth_error (elems input) c) as [payload |] eqn:Hp;
    [| apply nth_error_None in Hp; lia].
  rewrite Nat2Z.id, (skipn_nth_error _ _ _ Hp).
  destruct (Nat.eq_dec c i) as [-> | Hci].
  - rewrite He. replace (S i - i)%nat with 1%nat by lia. cbn [firstn map].
    destruct (is_EOF (Some e)) eqn:Heof.
    + eexists. split; [reflexivity |].
      rewrite rpc_events_send, rpc_events_closeAndReceive. reflexivity.
    + cbn [is_nil]. eexists. split; [reflexivity |].
      rewrite <- (app_nil_r (wait_interval w ++ _)).
      rewrite rpc_events_send. reflexivity.
  - rewrite (Hsend c) by lia. cbn [is_EOF is_nil].
    assert (Hw : wrap64 (Z.of_nat c + 1) = Z.of_nat (S c)).
    { rewrite wrap64_in_range; unfold len, min_int64, max_int64 in *; lia. }
    rewrite Hw.
    destruct (IH (S c) ltac:(lia) ltac:(lia)) as (tr & -> & Htr).
    { intros j Hj. apply Hsend. lia. }
    cbn [andThen]. eexists. split; [reflexivity |].
    rewrite rpc_events_send, Htr.
    replace (S i - c)%nat with (S (S i - S c)) by lia. reflexivity.
Qed.

(** X6.  When the stream opens and every send succeeds, the client-streaming
    adapter sends all the payloads in their order, then closes and
    receives, and returns nil. *)
Theorem clientStreaming_sends_all_in_order :
  forall (w : Worker Message) (env : CallEnv) (ctx : Context)
         (input : slice Message) (fuel : nat),
    invoke_err env = None ->
    len input <= max_int64 ->
    (forall j, (j < List.length (elems input))%nat -> send_err env j = None) ->
    (List.length (elems input) < fuel)%nat ->
    exists tr,
      makeClientStreamingRequest w env ctx input fuel
      = Some (Returned None, tr)
      /\ rpc_events tr
         = EvInvokeRpcClientStream ctx (callOptions w)
           :: map EvSendMsg (elems input) ++ [EvCloseAndReceive].
Proof.
  intros w env ctx input fuel Hopen Hmax Hsend Hf.
  unfold makeClientStreamingRequest. rewrite Hopen. cbn [is_nil negb andb].
  destruct (clientStreamLoop_all_sent w env input Hmax fuel 0)
    as (tr & Hloop & Htr); [lia | lia | intros j Hj; apply Hsend; lia |].
  cbn [Z.of_nat] in Hloop. rewrite Hloop.
  eexists. split; [reflexivity |].
  rewrite rpc_events_app, Htr. reflexivity.
Qed.

(** X7.  When the i-th send is the first to fail, the client-streaming
    adapter has sent the payloads 0..i in order and sends nothing more; it
    closes and receives only if the failure is the end of the stream
    ([io.EOF]); after any other send error the stream is left as it is.  In
    both cases the adapter returns nil. *)
Theorem clientStreaming_stops_at_first_send_error :
  forall (w : Worker Message) (env : CallEnv) (ctx : Context)
         (input : slice Message) (fuel i : nat) (e : error),
    invoke_err env = None ->
    len input <= max_int64 ->
    (i < List.length (elems input))%nat ->
    (forall j, (j < i)%nat -> send_err env j = None) ->
    send_err env i = Some e ->
    (i < fuel)%nat ->
    exists tr,
      makeClientStreamingRequest w env ctx input fuel
      = Some (Returned None, tr)
      /\ rpc_events tr
         = EvInvokeRpcClientStream ctx (callOptions w)
           :: map EvSendMsg (firstn (S i) (elems input))
              ++ (if is_EOF (Some e) then [EvCloseAndReceive] else []).
Proof.
  intros w env ctx input fuel i e Hopen Hmax Hi Hsend He Hf.
  unfold makeClientStreamingRequest. rewrite Hopen. cbn [is_nil negb andb].
  destruct (clientStreamLoop_send_fails w env input i e Hmax Hi He fuel 0)
    as (tr & Hloop & Htr); [lia | lia | intros j Hj; apply Hsend; lia |].
  cbn [Z.of_nat] in Hloop. rewrite Hloop.
  eexists. split; [reflexivity |].
  rewrite rpc_events_app, Htr, Nat.sub_0_r. reflexivity.
Qed.

(** X8.  The client-streaming adapter never returns an error: for every
    outcome of the open, send and close operations it returns nil (given
    fuel for one pass per payload and one more).  When the stream cannot be
    opened it does nothing else on the network. *)
Theorem clientStreaming_always_returns_nil :
  forall (w : Worker Message) (env : CallEnv) (ctx : Context)
         (input : slice Message) (fuel : nat),
    len input <= max_int64 ->
    (Z.to_nat (len input) < fuel)%nat ->
    exists tr,
      makeClientStreamingRequest w env ctx input fuel
      = Some (Returned None, tr)
      /\ (invoke_err env <> None ->
          rpc_events tr = [EvInvokeRpcClientStream ctx (callOptions w)]).
Proof.
  intros w env ctx input fuel Hmax Hf.
  destruct (makeClientStreamingRequest_enough_fuel w env ctx input fuel
              Hmax Hf) as [tr Htr].
  exists tr. split; [exact Htr |].
  intros Hopen. unfold makeClientStreamingRequest in Htr.
  destruct (invoke_err env) as [e |]; [| congruence].
  cbn [is_nil negb andb] in Htr. inversion Htr; subst.
  destruct (hasLog (config w)); reflexivity.
Qed.

(** ** Server streaming *)

Lemma serverStreamLoop_first_error (w : Worker Message) (env : CallEnv)
  (k : nat) :
  recv_err env k <> None ->
  (forall j, (j < k)%nat -> recv_err env j = None) ->
  forall fuel calls,
    (calls <= k)%nat ->
    (k - calls < fuel)%nat ->
    exists tr,
      serverStreamLoop w env fuel calls
      = Some (if is_EOF (recv_err env k) then None else recv_err env k, tr)
      /\ rpc_events tr = repeat EvRecvMsg (S k - calls).
Proof.
  intros Hk Hbefore.
  induction fuel as [| fuel IH]; intros calls Hle Hf; [lia |].
  cbn [serverStreamLoop].
  destruct (Nat.eq_dec calls k) as [-> | Hne].
  - destruct (recv_err env k) as [e |] eqn:E; [| congruence].
    cbn [is_nil negb]. eexists. split; [reflexivity |].
    replace (S k - k)%nat with 1%nat by lia.
    destruct (hasLog (config w)); reflexivity.
  - rewrite (Hbefore calls) by lia. cbn [is_nil negb].
    destruct (IH (S calls) ltac:(lia) ltac:(lia)) as (tr & -> & Htr).
    cbn [andThen]. eexists. split; [reflexivity |].
    change (EvRecvMsg :: ?l) with ([@EvRecvMsg Message] ++ l).
    rewrite !rpc_events_app, rpc_events_log, Htr.
    replace (S k - calls)%nat with (S (S k - S calls)) by lia. reflexivity.
Qed.

(** X9.  The server-streaming adapter returns the error of the call that
    opens the stream, and nothing else.  If the open fails it does not
    receive.  If the open succeeds and the k-th receive is the first to
    report an error, it calls [RecvMsg] exactly k + 1 times and returns
    nil, whether that error is the end of the stream or not. *)
Theorem serverStreaming_receives_until_first_error :
  forall (w : Worker Message) (env : CallEnv) (ctx : Context)
         (input : Message) (fuel k : nat),
    recv_err env k <> None ->
    (forall j, (j < k)%nat -> recv_err env j = None) ->
    (k < fuel)%nat ->
    exists tr,
      makeServerStreamingRequest w env ctx input fuel
      = Some (Returned (invoke_err env), tr)
      /\ rpc_events tr
         = EvInvokeRpcServerStream ctx input (callOptions w)
           :: (if is_nil (invoke_err env)
               then repeat EvRecvMsg (S k) else []).
Proof.
  intros w env ctx input fuel k Hk Hbefore Hf.
  unfold makeServerStreamingRequest.
  destruct (invoke_err env) as [e |]; cbn [is_nil negb andb].
  - eexists. split; [reflexivity |].
    destruct (hasLog (config w)); reflexivity.
  - destruct (serverStreamLoop_first_error w env k Hk Hbefore fuel 0)
      as (tr & -> & Htr); [lia | lia |].
    eexists. split; [reflexivity |].
    rewrite rpc_events_app, Htr, Nat.sub_0_r. reflexivity.
Qed.

(** ** Bidirectional streaming *)

Lemma filter_send_log (b : bool) (msg : string) :
  filter is_send_event (@log_if Message b msg) = [].
Proof. destruct b; reflexivity. Qed.

Lemma filter_send_wait (w : Worker Message) :
  filter is_send_event (wait_interval w) = [].
Proof.
  unfold wait_interval. destruct (0 <? streamInterval (config w)); reflexivity.
Qed.

Lemma filter_recv_log (b : bool) (msg : string) :
  filter is_recv_event (@log_if Message b msg) = [].
Proof. destruct b; reflexivity. Qed.

Lemma filter_recv_wait (w : Worker Message) :
  filter is_recv_event (wait_interval w) = [].
Proof.
  unfold wait_interval. destruct (0 <? streamInterval (config w)); reflexivity.
Qed.

Lemma index_some_nth_error {A} (s : slice A) (i : Z) (a : A) :
  index s i = Some a -> 0 <= i /\ nth_error (elems s) (Z.to_nat i) = Some a.
Proof.
  unfold index. destruct (Z.ltb_spec i 0) as [Hneg | Hpos];
    [discriminate |].
  intros Hnth. split; [lia | exact Hnth].
Qed.

Lemma bidi_sends_step (w : Worker Message) (env : CallEnv)
  (input : slice Message) (t : thread) (s s' : bidi_state Message) :
  len input <= max_int64 ->
  bidi_sends env input s ->
  thread_step w env input t s = Some s' ->
  bidi_sends env input s'.
Proof.
  intros Hmax (Hc & Htr & Herr & Hall) Hstep.
  destruct t; cbn [thread_step] in Hstep.
  - unfold main_step in Hstep.
    destruct (b_pc s) eqn:Hpc; try discriminate.
    + destruct (is_nil (b_err s)) eqn:Hnil.
      * destruct (Z.eqb_spec (b_counter s) (len input)) as [Heq | Hne].
        -- inversion Hstep; subst; clear Hstep.
           unfold bidi_sends; cbn [b_pc b_err b_counter b_trace].
           repeat split; auto; try lia.
           rewrite filter_app, Htr. unfold closeSend. cbn [filter is_send_event].
           rewrite filter_send_log, app_nil_r. reflexivity.
        -- destruct (index input (b_counter s)) as [payload |] eqn:Hp.
           ++ inversion Hstep; subst; clear Hstep.
              destruct (index_some_nth_error _ _ _ Hp) as [_ Hnth].
              assert (Hw : wrap64 (b_counter s + 1) = b_counter s + 1).
              { apply wrap64_in_range.
                unfold min_int64, max_int64 in *. lia. }
              unfold bidi_sends; cbn [b_pc b_err b_counter b_trace].
              rewrite Hw.
              replace (Z.to_nat (b_counter s + 1))
                with (S (Z.to_nat (b_counter s))) by lia.
              repeat split; try lia.
              ** rewrite !filter_app, Htr, filter_send_wait.
                 cbn [filter is_send_event app].
                 rewrite filter_send_log, (firstn_nth_error _ _ _ Hnth).
                 rewrite map_app. reflexivity.
              ** intros [H | H]; discriminate H.
           ++ inversion Hstep; subst; clear Hstep.
              unfold bidi_sends; cbn [b_pc b_err b_counter b_trace].
              repeat split; auto; try lia.
              intros [H | H]; discriminate H.
      * inversion Hstep; subst; clear Hstep.
        unfold bidi_sends; cbn [b_pc b_err b_counter b_trace].
        repeat split; auto; try lia.
        intros _ Hn. rewrite Hn in Hnil. discriminate Hnil.
    + destruct (is_nil (b_err s) && negb (b_recvDone s)); try discriminate.
      inversion Hstep; subst; clear Hstep.
      unfold bidi_sends; cbn [b_pc b_err b_counter b_trace].
      repeat split; auto; try lia.
  - unfold recv_step in Hstep.
    destruct (b_recv_alive s); try discriminate.
    inversion Hstep; subst; clear Hstep.
    unfold bidi_sends; cbn [b_pc b_err b_counter b_trace].
    repeat split; auto; try lia.
    rewrite filter_app, Htr. cbn [filter is_send_event].
    rewrite filter_send_log, app_nil_r. reflexivity.
Qed.

Lemma bidi_reachable_sends (w : Worker Message) (env : CallEnv)
  (input : slice Message) (tr0 : trace Message) (s : bidi_state Message) :
  len input <= max_int64 ->
  filter is_send_event tr0 = [] ->
  bidi_reachable w env input tr0 s ->
  bidi_sends env input s.
Proof.
  intros Hmax Htr0. induction 1 as [| t s s' _ IH Hstep].
  - unfold bidi_sends, bidi_init; cbn.
    pose proof (Nat2Z.is_nonneg (List.length (elems input))).
    unfold len. repeat split; auto; try lia.
    intros [H1 | H1]; discriminate H1.
  - exact (bidi_sends_step w env input t s s' Hmax IH Hstep).
Qed.

Lemma bidi_receives_step (w : Worker Message) (env : CallEnv)
  (input : slice Message) (t : thread) (s s' : bidi_state Message) :
  bidi_receives env s ->
  thread_step w env input t s = Some s' ->
  bidi_receives env s'.
Proof.
  intros (Hn & Hold & Halive) Hstep.
  destruct t; cbn [thread_step] in Hstep.
  - assert (Hsame : b_recv_calls s' = b_recv_calls s
                    /\ b_recv_alive s' = b_recv_alive s
                    /\ filter is_recv_event (b_trace s')
                       = filter is_recv_event (b_trace s)).
    { unfold main_step in Hstep.
      destruct (b_pc s); try discriminate.
      - destruct (is_nil (b_err s)).
        + destruct (b_counter s =? len input).
          * inversion Hstep; subst; cbn. repeat split.
            rewrite filter_app. unfold closeSend. cbn [filter is_recv_event].
            rewrite filter_recv_log, app_nil_r. reflexivity.
          * destruct (index input (b_counter s));
              inversion Hstep; subst; cbn; repeat split.
            rewrite !filter_app, filter_recv_wait.
            cbn [filter is_recv_event app].
            rewrite filter_recv_log, app_nil_r. reflexivity.
        + inversion Hstep; subst; cbn. repeat split.
      - destruct (is_nil (b_err s) && negb (b_recvDone s));
          try discriminate.
        inversion Hstep; subst; cbn. repeat split. }
    destruct Hsame as (Hc & Ha & Hf).
    unfold bidi_receives. rewrite Hc, Ha, Hf. auto.
  - unfold recv_step in Hstep.
    destruct (b_recv_alive s) eqn:Ha; try discriminate.
    inversion Hstep; subst; clear Hstep.
    specialize (Halive eq_refl).
    unfold bidi_receives; cbn [b_recv_calls b_recv_alive b_trace].
    repeat split.
    + rewrite filter_app, length_app, Hn. cbn [filter is_recv_event].
      rewrite filter_recv_log. cbn. lia.
    + intros i Hi. apply Halive. lia.
    + intros Hnil i Hi.
      destruct (Nat.eq_dec i (b_recv_calls s)) as [-> | Hne].
      * destruct (recv_err env (b_recv_calls s)); [discriminate | reflexivity].
      * apply Halive. lia.
Qed.

Lemma bidi_reachable_receives (w : Worker Message) (env : CallEnv)
  (input : slice Message) (tr0 : trace Message) (s : bidi_state Message) :
  filter is_recv_event tr0 = [] ->
  bidi_reachable w env input tr0 s ->
  bidi_receives env s.
Proof.
  intros Htr0. induction 1 as [| t s s' _ IH Hstep].
  - unfold bidi_receives, bidi_init; cbn. rewrite Htr0.
    repeat split; intros; lia.
  - exact (bidi_receives_step w env input t s s' IH Hstep).
Qed.

Lemma bidi_reachable_close (w : Worker Message) (env : CallEnv)
  (input : slice Message) (tr0 : trace Message) (s : bidi_state Message) :
  bidi_reachable w env input tr0 s ->
  b_pc s = AfterLoop \/ b_pc s = BidiReturned ->
  b_err s = None ->
  In EvCloseSend (b_trace s).
Proof.
  induction 1 as [| t s s' _ IH Hstep]; intros Hpc Herr.
  - destruct Hpc as [Hpc | Hpc]; discriminate Hpc.
  - destruct t; cbn [thread_step] in Hstep.
    + unfold main_step in Hstep.
      destruct (b_pc s) eqn:Hpc0; try discriminate.
      * destruct (is_nil (b_err s)) eqn:Hnil.
        -- destruct (b_counter s =? len input).
           ++ inversion Hstep; subst; cbn [b_trace].
              apply in_or_app. right. left. reflexivity.
           ++ destruct (index input (b_counter s));
                inversion Hstep; subst; cbn [b_pc] in Hpc;
                destruct Hpc as [Hpc | Hpc]; discriminate Hpc.
        -- inversion Hstep; subst. cbn [b_err] in Herr.
           rewrite Herr in Hnil. discriminate Hnil.
      * destruct (is_nil (b_err s) && negb (b_recvDone s));
          try discriminate.
        inversion Hstep; subst. cbn [b_trace b_err] in *. apply IH; auto.
    + unfold recv_step in Hstep.
      destruct (b_recv_alive s); try discriminate.
      inversion Hstep; subst. cbn [b_trace b_err b_pc] in *.
      apply in_or_app. left. apply IH; auto.
Qed.

(** X10.  With an empty input (nil or of length 0) and a stream that
    opened, the bidirectional adapter closes the send side and returns nil
    at once: it sends nothing, starts no receive goroutine and calls
    [RecvMsg] not once. *)
Theorem bidi_empty_input_closes_send :
  forall (w : Worker Message) (env : CallEnv) (ctx : Context)
         (input : slice Message) (fuel : nat),
    invoke_err env = None ->
    len input = 0 ->
    exists tr,
      makeBidiRequest w env ctx input fuel = Some (Returned None, tr)
      /\ rpc_events tr
         = [EvInvokeRpcBidiStream ctx (callOptions w); EvCloseSend].
Proof.
  intros w env ctx input fuel Hopen Hlen.
  unfold makeBidiRequest. rewrite Hopen, Hlen. cbn [is_nil negb].
  rewrite Z.eqb_refl, orb_true_r.
  eexists. split; [reflexivity |].
  rewrite rpc_events_app, rpc_events_closeSend. reflexivity.
Qed.

(** X11.  In every interleaving of a bidirectional call, what has been
    sent is the first [counter] payloads of the input in their order, each
    once; and when the adapter has returned without a send error, it is the
    whole input. *)
Theorem bidi_sends_in_input_order :
  forall (w : Worker Message) (env : CallEnv) (ctx : Context)
         (input : slice Message) (s : bidi_state Message),
    len input <= max_int64 ->
    bidi_reachable w env input
      [EvInvokeRpcBidiStream ctx (callOptions w)] s ->
    filter is_send_event (b_trace s)
    = map EvSendMsg (firstn (Z.to_nat (b_counter s)) (elems input))
    /\ (b_pc s = BidiReturned -> b_err s = None ->
        filter is_send_event (b_trace s) = map EvSendMsg (elems input)).
Proof.
  intros w env ctx input s Hmax Hreach.
  destruct (bidi_reachable_sends w env input
              [EvInvokeRpcBidiStream ctx (callOptions w)] s Hmax eq_refl
              Hreach) as (Hc & Htr & _ & Hall).
  split; [exact Htr |].
  intros Hpc Herr. rewrite Htr, (Hall (or_intror Hpc) Herr).
  unfold len. rewrite Nat2Z.id, firstn_all. reflexivity.
Qed.

(** X12.  In every interleaving of a bidirectional call, the receive
    goroutine has called [RecvMsg] as many times as the trace shows, and
    every call but its last returned without error: it never receives again
    after a receive error. *)
Theorem bidi_receiver_stops_at_first_error :
  forall (w : Worker Message) (env : CallEnv) (ctx : Context)
         (input : slice Message) (s : bidi_state Message),
    bidi_reachable w env input
      [EvInvokeRpcBidiStream ctx (callOptions w)] s ->
    List.length (filter is_recv_event (b_trace s)) = b_recv_calls s
    /\ (forall i, (S i < b_recv_calls s)%nat -> recv_err env i = None).
Proof.
  intros w env ctx input s Hreach.
  destruct (bidi_reachable_receives w env input
              [EvInvokeRpcBidiStream ctx (callOptions w)] s eq_refl Hreach)
    as (Hn & Hold & _).
  split; assumption.
Qed.

(** X13.  A bidirectional call cannot deadlock: in every interleaving, as
    long as the adapter has neither returned nor panicked, one of the two
    goroutines can take a step.  In particular, while the adapter is
    blocked on [recvDone] the receive goroutine is still in its loop. *)
Theorem bidi_never_deadlocks :
  forall (w : Worker Message) (env : CallEnv) (input : slice Message)
         (tr0 : trace Message) (s : bidi_state Message),
    bidi_reachable w env input tr0 s ->
    b_pc s = SendLoop \/ b_pc s = AfterLoop ->
    (exists t s', thread_step w env input t s = Some s')
    /\ (main_step w env input s = None -> b_recv_alive s = true).
Proof.
  intros w env input tr0 s Hreach Hpc.
  destruct (bidi_reachable_inv w env input tr0 s Hreach) as (Hdone & _ & _).
  assert (Hmain : main_step w env input s = None -> b_recv_alive s = true).
  { unfold main_step. destruct Hpc as [Hpc | Hpc]; rewrite Hpc.
    - destruct (is_nil (b_err s)); [| discriminate].
      destruct (b_counter s =? len input); [discriminate |].
      destruct (index input (b_counter s)); discriminate.
    - rewrite Hdone. destruct (b_recv_alive s); [reflexivity |].
      rewrite andb_false_r. discriminate. }
  split; [| exact Hmain].
  destruct (main_step w env input s) as [s' |] eqn:E.
  - exists MainThread, s'. exact E.
  - specialize (Hmain eq_refl). exists RecvThread. eexists.
    cbn [thread_step]. unfold recv_step. rewrite Hmain. reflexivity.
Qed.

(** X14.  Under every schedule of the two goroutines, the bidirectional
    adapter returns as soon as some receive of the stream reports an error
    (the end of the stream included): fuel for one step per payload, one
    per receive up to that error and three more is enough.  What it returns
    is the error of the open call. *)
Theorem bidi_returns_under_every_schedule :
  forall (w : Worker Message) (env : CallEnv) (ctx : Context)
         (input : slice Message) (k fuel : nat),
    len input <= max_int64 ->
    recv_err env k <> None ->
    (Z.to_nat (len input) + k + 3 <= fuel)%nat ->
    exists tr,
      makeBidiRequest w env ctx input fuel
      = Some (Returned (invoke_err env), tr).
Proof.
  intros w env ctx input k fuel Hmax Hk Hf.
  exact (makeBidiRequest_enough_fuel w env ctx input k fuel Hmax Hk Hf).
Qed.

(** X15.  A bidirectional call on a non-empty input whose sends all
    succeed: under every schedule, once some receive reports an error, the
    adapter returns nil, and by then it has sent the whole input in order,
    closed the send side, and the receive goroutine has made exactly i + 1
    receives, where the i-th is the first that reported an error. *)
Theorem bidi_successful_sends_complete_call :
  forall (w : Worker Message) (env : CallEnv) (ctx : Context)
         (input : slice Message) (k fuel : nat),
    invoke_err env = None ->
    1 <= len input <= max_int64 ->
    (forall j, (j < List.length (elems input))%nat -> send_err env j = None) ->
    recv_err env k <> None ->
    (Z.to_nat (len input) + k + 3 <= fuel)%nat ->
    exists tr i,
      makeBidiRequest w env ctx input fuel = Some (Returned None, tr)
      /\ filter is_send_event tr = map EvSendMsg (elems input)
      /\ In EvCloseSend tr
      /\ List.length (filter is_recv_event tr) = S i
      /\ recv_err env i <> None
      /\ (forall j, (j < i)%nat -> recv_err env j = None).
Proof.
  intros w env ctx input k fuel Hopen Hlen Hsend Hk Hf.
  unfold makeBidiRequest. rewrite Hopen. cbn [is_nil negb].
  assert (Hne : is_nil_slice input || (len input =? 0) = false).
  { destruct input as [l |]; cbn; [apply Z.eqb_neq; lia |].
    unfold len in Hlen; cbn in Hlen. lia. }
  rewrite Hne.
  set (tr0 := [EvInvokeRpcBidiStream ctx (callOptions w)]).
  destruct (bidi_run_enough_fuel w env input k ltac:(lia) Hk fuel 0
              (bidi_init tr0)) as (s & Hrun & Hpc).
  { apply bidi_bounds_init. }
  { unfold bidi_measure, bidi_init;
      cbn [b_pc b_counter b_recv_alive b_recv_calls]. lia. }
  rewrite Hrun, Hpc.
  destruct (bidi_run_reachable w env input tr0 fuel 0 _ s
              (reach_init w env input tr0) Hrun) as [Hreach _].
  destruct (bidi_reachable_sends w env input tr0 s ltac:(lia) eq_refl Hreach)
    as (Hc & Htr & Herr & Hall).
  destruct (bidi_reachable_receives w env input tr0 s eq_refl Hreach)
    as (Hn & Hold & _).
  destruct (bidi_reachable_inv w env input tr0 s Hreach)
    as (Hdone & Hfin & Hret).
  assert (Herr0 : b_err s = None).
  { rewrite Herr. destruct (Z.to_nat (b_counter s)) as [| i] eqn:E;
      [reflexivity |].
    apply Hsend. unfold len in Hc. lia. }
  assert (Hcount : b_counter s = len input) by (apply Hall; auto).
  specialize (Hret Hpc Herr0).
  assert (Halive : b_recv_alive s = false).
  { rewrite Hret in Hdone. destruct (b_recv_alive s);
      [discriminate | reflexivity]. }
  destruct (Hfin Halive) as (_ & i & Hcalls & Hi).
  exists (b_trace s), i.
  split; [reflexivity |].
  split.
  { rewrite Htr, Hcount. unfold len. rewrite Nat2Z.id, firstn_all.
    reflexivity. }
  split.
  { apply (bidi_reachable_close w env input tr0 s Hreach); auto. }
  split; [rewrite Hn; exact Hcalls |].
  split; [exact Hi |].
  intros j Hj. apply Hold. lia.
Qed.

(** ** runWorker *)

Lemma cond_nil_log (b : bool) (msg : string) :
  Forall cond_nil (@log_if Message b msg).
Proof. destruct b; repeat constructor. Qed.

Lemma cond_nil_wait (w : Worker Message) :
  Forall cond_nil (wait_interval w).
Proof.
  unfold wait_interval.
  destruct (0 <? streamInterval (config w)); repeat constructor.
Qed.

Lemma cond_nil_closeAndReceive (w : Worker Message) :
  Forall cond_nil (closeAndReceive w).
Proof. constructor; [exact I | apply cond_nil_log]. Qed.

Lemma cond_nil_closeSend (w : Worker Message) :
  Forall cond_nil (closeSend w).
Proof. constructor; [exact I | apply cond_nil_log]. Qed.

Lemma cond_nil_send (w : Worker Message) (payload : Message) :
  Forall cond_nil
    (wait_interval w
     ++ EvSendMsg payload :: log_if (hasLog (config w)) "Send message").
Proof.
  apply Forall_app. split; [apply cond_nil_wait |].
  constructor; [exact I | apply cond_nil_log].
Qed.

Lemma getMessages_cond_nil (w w1 : Worker Message) (ctd : callTemplateData)
  (inputData : string) (r : slice Message * goerror) (tr : trace Message) :
  getMessages C w ctd inputData = (w1, r, tr) -> Forall cond_nil tr.
Proof.
  unfold getMessages.
  destruct (cachedMessages w); [intros H; inversion H; constructor |].
  destruct (negb (binary (config w))).
  - destruct (executeData C ctd inputData) as [d [e |]];
      [intros H; inversion H; repeat constructor |].
    destruct (createPayloadsFromJSON C d (mtd w)) as [i [e |]];
      intros H; inversion H; repeat constructor.
  - destruct (createPayloadsFromBin C inputData (mtd w)) as [i [e |]];
      intros H; inversion H; repeat constructor.
Qed.

Lemma resolveInputs_cond_nil (w w1 : Worker Message) (reqNum : Z)
  (r : slice Message * goerror) (tr : trace Message) :
  resolveInputs C w reqNum = Some (w1, r, tr) -> Forall cond_nil tr.
Proof.
  unfold resolveInputs.
  destruct (negb (binary (config w)) && negb (IsClientStreaming (mtd w))
            && (0 <? len (arrayJSONData w))).
  - destruct (index (arrayJSONData w) _); [| discriminate].
    intros H; inversion H as [H1]. eapply getMessages_cond_nil; eauto.
  - intros H; inversion H as [H1]. eapply getMessages_cond_nil; eauto.
Qed.

Lemma clientStreamLoop_cond_nil (w : Worker Message) (env : CallEnv)
  (input : slice Message) :
  forall fuel counter c tr,
    clientStreamLoop w env input fuel counter = Some (c, tr) ->
    Forall cond_nil tr.
Proof.
  induction fuel as [| fuel IH]; intros counter c tr; [discriminate |].
  cbn [clientStreamLoop].
  destruct (is_nil_slice input || (len input =? 0)).
  { intros H; inversion H. apply cond_nil_closeAndReceive. }
  destruct (counter =? len input).
  { intros H; inversion H. apply cond_nil_closeAndReceive. }
  destruct (index input counter) as [payload |];
    [| intros H; inversion H; constructor].
  destruct (is_EOF (send_err env (Z.to_nat counter))).
  { intros H; inversion H. apply Forall_app.
    split; [apply cond_nil_send | apply cond_nil_closeAndReceive]. }
  destruct (is_nil (send_err env (Z.to_nat counter))).
  - destruct (clientStreamLoop w env input fuel (wrap64 (counter + 1)))
      as [[c' tr'] |] eqn:E; [| discriminate].
    cbn [andThen]. intros H; inversion H. apply Forall_app.
    split; [apply cond_nil_send | exact (IH _ _ _ E)].
  - intros H; inversion H. apply cond_nil_send.
Qed.

Lemma serverStreamLoop_cond_nil (w : Worker Message) (env : CallEnv) :
  forall fuel calls r tr,
    serverStreamLoop w env fuel calls = Some (r, tr) ->
    Forall cond_nil tr.
Proof.
  induction fuel as [| fuel IH]; intros calls r tr; [discriminate |].
  cbn [serverStreamLoop].
  destruct (negb (is_nil (recv_err env calls))).
  - intros H; inversion H. constructor; [exact I | apply cond_nil_log].
  - destruct (serverStreamLoop w env fuel (S calls)) as [[r' tr'] |] eqn:E;
      [| discriminate].
    cbn [andThen]. intros H; inversion H.
    change (EvRecvMsg :: ?l ++ tr') with ((@EvRecvMsg Message :: l) ++ tr').
    apply Forall_app. split; [| exact (IH _ _ _ E)].
    constructor; [exact I | apply cond_nil_log].
Qed.

Lemma bidi_reachable_cond_nil (w : Worker Message) (env : CallEnv)
  (input : slice Message) (tr0 : trace Message) (s : bidi_state Message) :
  Forall cond_nil tr0 ->
  bidi_reachable w env input tr0 s ->
  Forall cond_nil (b_trace s).
Proof.
  intros Htr0. induction 1 as [| t s s' _ IH Hstep]; [exact Htr0 |].
  destruct t; cbn [thread_step] in Hstep.
  - unfold main_step in Hstep.
    destruct (b_pc s); try discriminate.
    + destruct (is_nil (b_err s)).
      * destruct (b_counter s =? len input).
        -- inversion Hstep; subst; cbn [b_trace].
           apply Forall_app. split; [exact IH | apply cond_nil_closeSend].
        -- destruct (index input (b_counter s));
             inversion Hstep; subst; cbn [b_trace]; [| exact IH].
           apply Forall_app. split; [exact IH | apply cond_nil_send].
      * inversion Hstep; subst; exact IH.
    + destruct (is_nil (b_err s) && negb (b_recvDone s)); try discriminate.
      inversion Hstep; subst; exact IH.
  - unfold recv_step in Hstep.
    destruct (b_recv_alive s); try discriminate.
    inversion Hstep; subst; cbn [b_trace].
    apply Forall_app. split; [exact IH |].
    constructor; [exact I | apply cond_nil_log].
Qed.

Lemma dispatch_cond_nil (w : Worker Message) (env : CallEnv) (ctx : Context)
  (reqMD : MD) (inputs : slice Message) (unaryInput : Message) (fuel : nat)
  (c : completion goerror) (tr : trace Message) :
  dispatch w env ctx reqMD inputs unaryInput fuel = Some (c, tr) ->
  Forall cond_nil tr.
Proof.
  unfold dispatch.
  destruct (IsClientStreaming (mtd w) && IsServerStreaming (mtd w)).
  { unfold makeBidiRequest.
    destruct (negb (is_nil (invoke_err env))).
    { intros H; inversion H. constructor; [exact I | apply cond_nil_log]. }
    destruct (is_nil_slice inputs || (len inputs =? 0)).
    { intros H; inversion H. constructor; [exact I | apply cond_nil_closeSend]. }
    destruct (bidi_run w env inputs fuel 0 _) as [s |] eqn:Hrun;
      [| discriminate].
    destruct (bidi_run_reachable w env inputs _ fuel 0 _ s
                (reach_init w env inputs _) Hrun) as [Hreach _].
    assert (Hs : Forall cond_nil (b_trace s)).
    { eapply bidi_reachable_cond_nil; [| exact Hreach].
      repeat constructor. }
    destruct (b_pc s); intros H; inversion H; subst; exact Hs. }
  destruct (IsClientStreaming (mtd w)).
  { unfold makeClientStreamingRequest.
    destruct (invoke_err env) as [e |]; cbn [is_nil negb andb log_if app].
    - intros H; inversion H. constructor; [exact I | apply cond_nil_log].
    - destruct (clientStreamLoop w env inputs fuel 0) as [[c' tr'] |] eqn:E;
        [| discriminate].
      pose proof (clientStreamLoop_cond_nil w env inputs _ _ _ _ E) as Htr'.
      destruct c'; intros H; inversion H; subst;
        (constructor; [exact I | exact Htr']). }
  destruct (IsServerStreaming (mtd w)).
  { unfold makeServerStreamingRequest.
    destruct (invoke_err env) as [e |]; cbn [is_nil negb andb log_if app].
    - intros H; inversion H. constructor; [exact I | apply cond_nil_log].
    - destruct (serverStreamLoop w env fuel 0) as [[r' tr'] |] eqn:E;
        [| discriminate].
      pose proof (serverStreamLoop_cond_nil w env _ _ _ _ E) as Htr'.
      intros H; inversion H; subst.
      constructor; [exact I | exact Htr']. }
  unfold makeUnaryRequest. intros H; inversion H.
  constructor; [exact I | apply cond_nil_log].
Qed.

Lemma makeRequest_cond_nil (w w' : Worker Message) (reqNum : Z)
  (env : CallEnv) (fuel : nat) (c : completion goerror)
  (tr : trace Message) :
  makeRequest C w reqNum env fuel = Some (w', c, tr) ->
  Forall cond_nil tr.
Proof.
  unfold makeRequest.
  destruct (resolveInputs C w reqNum) as [[[w1 [inputs err1]] tr1] |] eqn:Hres;
    [| intros H; inversion H; constructor].
  pose proof (resolveInputs_cond_nil w w1 reqNum _ tr1 Hres) as Htr1.
  destruct err1 as [e1 |]; [intros H; inversion H; subst; exact Htr1 |].
  assert (Htr2 : Forall cond_nil
                   (tr1 ++ [EvExecuteMetadata
                              (newCallTemplateData (mtd w) (workerID w)
                                 reqNum)])).
  { apply Forall_app. split; [exact Htr1 | repeat constructor]. }
  destruct (executeMetadata C _ (metadata (config w1))) as [mdMap [e2 |]];
    cbn [is_nil negb].
  { intros H; inversion H; subst; exact Htr2. }
  assert (Htr3 : Forall cond_nil
                   ((tr1 ++ [EvExecuteMetadata
                               (newCallTemplateData (mtd w) (workerID w)
                                  reqNum)])
                    ++ log_if (hasLog (config w1)) "Making request")).
  { apply Forall_app. split; [exact Htr2 | apply cond_nil_log]. }
  assert (Hcancel : Forall cond_nil [@EvCancel Message])
    by repeat constructor.
  destruct (len inputs =? 0).
  { intros H; inversion H; subst. apply Forall_app. split; assumption. }
  destruct (selectInput reqNum inputs) as [unaryInput |].
  - destruct (dispatch w1 env _ _ inputs unaryInput fuel)
      as [[c4 tr4] |] eqn:Hd; [| discriminate].
    pose proof (dispatch_cond_nil w1 env _ _ inputs unaryInput fuel c4 tr4 Hd)
      as Htr4.
    destruct c4; intros H; inversion H; subst;
      (apply Forall_app; split; [exact Htr3 |]);
      (apply Forall_app; split; assumption).
  - intros H; inversion H; subst. apply Forall_app. split; assumption.
Qed.

Lemma runWorkerLoop_cond_nil (lenv : LoopEnv) (cond : ConditionChecker)
  (stopOnCond : bool) :
  forall fuel pass (st st' : loop_state Message) c,
    runWorkerLoop C lenv cond stopOnCond fuel pass st = Some (c, st') ->
    l_rErr st = None ->
    Forall cond_nil (l_trace st) ->
    Forall cond_nil (l_trace st').
Proof.
  induction fuel as [| fuel IH]; intros pass st st' c H Hr Htr;
    [discriminate |].
  cbn [runWorkerLoop] in H.
  destruct (done_ready lenv pass); [inversion H; subst; exact Htr |].
  assert (Htr1 : Forall cond_nil
                   (l_trace st
                    ++ [EvCond (workerID (l_worker st)) (l_rErr st) (l_n st)
                          (since_start lenv pass)])).
  { apply Forall_app. split; [exact Htr |].
    constructor; [exact Hr | constructor]. }
  destruct (cond _ _ _ _).
  - destruct (makeRequest C _ _ _ fuel) as [[[w' c'] tr'] |] eqn:Hreq;
      [| discriminate].
    pose proof (makeRequest_cond_nil _ _ _ _ _ _ _ Hreq) as Htr'.
    assert (Htr2 : Forall cond_nil
                     ((l_trace st
                       ++ [EvCond (workerID (l_worker st)) (l_rErr st)
                             (l_n st) (since_start lenv pass)]) ++ tr'))
      by (apply Forall_app; split; assumption).
    destruct c' as [rErr |].
    + apply IH in H; [exact H | exact Hr | exact Htr2].
    + inversion H; subst; exact Htr2.
  - destruct stopOnCond; [inversion H; subst; exact Htr1 |].
    apply IH in H; [exact H | exact Hr | exact Htr1].
Qed.

(** X16.  Every evaluation of the condition by [runWorker] receives nil as
    its error argument, whatever the requests issued before it returned. *)
Theorem runWorker_condition_always_gets_nil :
  forall (w : Worker Message) (reqCounter : Z) (lenv : LoopEnv)
         (cond : ConditionChecker) (stopOnCond : bool) (fuel : nat)
         (c : completion goerror) (st : loop_state Message)
         (id : string) (rErr : goerror) (n elapsed : Z),
    runWorker C w reqCounter lenv cond stopOnCond fuel = Some (c, st) ->
    In (EvCond id rErr n elapsed) (l_trace st) ->
    rErr = None.
Proof.
  intros w reqCounter lenv cond stopOnCond fuel c st id rErr n elapsed
    Hrun Hin.
  unfold runWorker in Hrun.
  apply runWorkerLoop_cond_nil in Hrun; [| reflexivity | constructor].
  rewrite Forall_forall in Hrun. exact (Hrun _ Hin).
Qed.

Lemma runWorkerLoop_spins (lenv : LoopEnv) (cond : ConditionChecker) :
  (forall pass, done_ready lenv pass = false) ->
  (forall id e n t, cond id e n t = false) ->
  forall fuel pass (st : loop_state Message),
    runWorkerLoop C lenv cond false fuel pass st = None.
Proof.
  intros Hdone Hcond. induction fuel as [| fuel IH]; intros pass st.
  - reflexivity.
  - cbn [runWorkerLoop]. rewrite Hdone, Hcond. apply IH.
Qed.

(** X17.  A condition that never accepts, with [done] never ready: with
    [stopOnCond] the loop evaluates the condition once, issues no request,
    leaves the shared counter as it was and returns nil; without
    [stopOnCond] it never returns, re-evaluating the condition at every
    pass without issuing a request. *)
Theorem runWorker_rejecting_condition :
  forall (w : Worker Message) (reqCounter : Z) (lenv : LoopEnv)
         (cond : ConditionChecker),
    (forall pass, done_ready lenv pass = false) ->
    (forall id e n t, cond id e n t = false) ->
    (forall fuel,
        runWorker C w reqCounter lenv cond true (S fuel)
        = Some (Returned None,
                {| l_worker := w; l_reqCounter := reqCounter;
                   l_err := None; l_rErr := None; l_n := 0;
                   l_trace := [EvCond (workerID w) None 0
                                 (since_start lenv 0)] |}))
    /\ (forall fuel,
           runWorker C w reqCounter lenv cond false fuel = None).
Proof.
  intros w reqCounter lenv cond Hdone Hcond. split.
  - intros fuel. unfold runWorker. cbn [runWorkerLoop].
    rewrite Hdone, Hcond. reflexivity.
  - intros fuel. apply runWorkerLoop_spins; assumption.
Qed.

Lemma runWorkerLoop_counts (lenv : LoopEnv) (cond : ConditionChecker)
  (stopOnCond : bool) :
  forall fuel pass (st st' : loop_state Message) c,
    runWorkerLoop C lenv cond stopOnCond fuel pass st = Some (c, st') ->
    exists m : nat,
      (m <= fuel)%nat
      /\ l_n st' = bump (l_n st) m
      /\ l_reqCounter st' = bump (l_reqCounter st) m
      /\ (forall p, (pass <= p)%nat -> done_ready lenv p = true ->
                    (m <= p - pass)%nat).
Proof.
  induction fuel as [| fuel IH]; intros pass st st' c H; [discriminate |].
  cbn [runWorkerLoop] in H.
  destruct (done_ready lenv pass) eqn:Hd.
  { inversion H; subst. exists 0%nat. repeat split; lia. }
  assert (Hpass : forall p, (pass <= p)%nat -> done_ready lenv p = true ->
                            (S pass <= p)%nat).
  { intros p Hp Hdp. destruct (Nat.eq_dec p pass) as [-> | Hne];
      [congruence | lia]. }
  destruct (cond _ _ _ _).
  - destruct (makeRequest C _ _ _ fuel) as [[[w' [rErr |]] tr'] |];
      [| | discriminate].
    + apply IH in H. cbn [l_n l_reqCounter] in H.
      destruct H as (m & Hm & En & Ec & Hp).
      exists (S m). rewrite En, Ec, !bump_succ.
      repeat split; try lia.
      intros p Hp1 Hp2. pose proof (Hpass p Hp1 Hp2) as Hp3.
      specialize (Hp p Hp3 Hp2). lia.
    + inversion H; subst; cbn [l_n l_reqCounter].
      exists 1%nat. repeat split; try lia.
      intros p Hp1 Hp2. specialize (Hpass p Hp1 Hp2). lia.
  - destruct stopOnCond.
    { inversion H; subst. exists 0%nat. repeat split; lia. }
    apply IH in H. cbn [l_n l_reqCounter] in H.
    destruct H as (m & Hm & En & Ec & Hp).
    exists m. repeat split; try lia; try assumption.
    intros p Hp1 Hp2. pose proof (Hpass p Hp1 Hp2) as Hp3.
      specialize (Hp p Hp3 Hp2). lia.
Qed.

(** X18.  When [runWorker] returns (or panics in a request), the shared
    request counter has advanced by exactly the number of requests that the
    loop counted in [n], both modulo 2^64: every accepted pass takes the
    next sequence number and no other pass touches the counter. *)
Theorem runWorker_counter_advances_with_requests :
  forall (w : Worker Message) (reqCounter : Z) (lenv : LoopEnv)
         (cond : ConditionChecker) (stopOnCond : bool) (fuel : nat)
         (c : completion goerror) (st : loop_state Message),
    min_int64 <= reqCounter <= max_int64 ->
    runWorker C w reqCounter lenv cond stopOnCond fuel = Some (c, st) ->
    exists m : nat,
      (m <= fuel)%nat
      /\ l_n st = wrap64 (Z.of_nat m)
      /\ l_reqCounter st = wrap64 (reqCounter + Z.of_nat m).
Proof.
  intros w reqCounter lenv cond stopOnCond fuel c st Hc Hrun.
  unfold runWorker in Hrun.
  apply runWorkerLoop_counts in Hrun. cbn [l_n l_reqCounter] in Hrun.
  destruct Hrun as (m & Hm & En & Ec & _).
  exists m. split; [exact Hm |].
  rewrite En, Ec, !bump_in_range; auto.
  unfold min_int64, max_int64. lia.
Qed.

(** X19.  No request begins once the cancellation has been delivered: if
    [done] is ready at pass p, a run of [runWorker] that ends has issued at
    most p requests, and none if [done] is ready from the start. *)
Theorem runWorker_issues_nothing_after_done :
  forall (w : Worker Message) (reqCounter : Z) (lenv : LoopEnv)
         (cond : ConditionChecker) (stopOnCond : bool) (fuel p : nat)
         (c : completion goerror) (st : loop_state Message),
    done_ready lenv p = true ->
    runWorker C w reqCounter lenv cond stopOnCond fuel = Some (c, st) ->
    exists m : nat,
      (m <= p)%nat /\ l_n st = wrap64 (Z.of_nat m).
Proof.
  intros w reqCounter lenv cond stopOnCond fuel p c st Hd Hrun.
  unfold runWorker in Hrun.
  apply runWorkerLoop_counts in Hrun. cbn [l_n l_reqCounter] in Hrun.
  destruct Hrun as (m & _ & En & _ & Hp).
  exists m. split; [specialize (Hp p ltac:(lia) Hd); lia |].
  rewrite En. apply bump_in_range. unfold min_int64, max_int64. lia.
Qed.

(** ** What a request may change, and when the loop ends *)

Lemma set_cachedMessages_same (w : Worker Message) :
  set_cachedMessages w (cachedMessages w) = w.
Proof. destruct w; reflexivity. Qed.

Lemma getMessages_touches_cache_only (w w1 : Worker Message)
  (ctd : callTemplateData) (inputData : string)
  (r : slice Message * goerror) (tr : trace Message) :
  getMessages C w ctd inputData = (w1, r, tr) ->
  w1 = set_cachedMessages w (cachedMessages w1)
  /\ (binary (config w) = false -> w1 = w).
Proof.
  unfold getMessages.
  destruct (cachedMessages w) eqn:Hc.
  { intros H; inversion H; subst. rewrite Hc, <- Hc.
    rewrite set_cachedMessages_same. auto. }
  destruct (binary (config w)); cbn [negb].
  - destruct (createPayloadsFromBin C inputData (mtd w)) as [i [e |]];
      intros H; inversion H; subst; cbn [cachedMessages set_cachedMessages].
    + rewrite Hc, <- Hc, set_cachedMessages_same.
      split; [reflexivity | discriminate].
    + split; [reflexivity | discriminate].
  - destruct (executeData C ctd inputData) as [d [e |]].
    { intros H; inversion H; subst.
      rewrite set_cachedMessages_same. auto. }
    destruct (createPayloadsFromJSON C d (mtd w)) as [i [e |]];
      intros H; inversion H; subst;
      rewrite set_cachedMessages_same; auto.
Qed.

(** X20.  A request changes nothing of the worker but the cache of decoded
    payloads, and in JSON mode it does not change the worker at all. *)
Theorem makeRequest_touches_cache_only :
  forall (w w' : Worker Message) (reqNum : Z) (env : CallEnv) (fuel : nat)
         (c : completion goerror) (tr : trace Message),
    makeRequest C w reqNum env fuel = Some (w', c, tr) ->
    w' = set_cachedMessages w (cachedMessages w')
    /\ (binary (config w) = false -> w' = w).
Proof.
  intros w w' reqNum env fuel c tr. unfold makeRequest.
  destruct (resolveInputs C w reqNum) as [[[w1 [inputs err1]] tr1] |] eqn:Hres.
  2: { intros H; inversion H; subst.
       rewrite set_cachedMessages_same. auto. }
  assert (Hw1 : w1 = set_cachedMessages w (cachedMessages w1)
                /\ (binary (config w) = false -> w1 = w)).
  { unfold resolveInputs in Hres.
    destruct (negb (binary (config w)) && negb (IsClientStreaming (mtd w))
              && (0 <? len (arrayJSONData w))).
    - destruct (index (arrayJSONData w) _); [| discriminate].
      inversion Hres as [H1]. eapply getMessages_touches_cache_only; eauto.
    - inversion Hres as [H1]. eapply getMessages_touches_cache_only; eauto. }
  destruct err1 as [e1 |]; [intros H; inversion H; subst; exact Hw1 |].
  destruct (executeMetadata C _ (metadata (config w1))) as [mdMap [e2 |]];
    cbn [is_nil negb]; [intros H; inversion H; subst; exact Hw1 |].
  destruct (len inputs =? 0); [intros H; inversion H; subst; exact Hw1 |].
  destruct (selectInput reqNum inputs) as [unaryInput |];
    [| intros H; inversion H; subst; exact Hw1].
  destruct (dispatch w1 env _ _ inputs unaryInput fuel) as [[[r |] tr4] |];
    [| | discriminate]; intros H; inversion H; subst; exact Hw1.
Qed.

Lemma makeRequest_unary_total (w : Worker Message) (reqNum : Z)
  (env : CallEnv) (fuel : nat) :
  IsClientStreaming (mtd w) = false ->
  IsServerStreaming (mtd w) = false ->
  exists w' c tr,
    makeRequest C w reqNum env fuel = Some (w', c, tr)
    /\ mtd w' = mtd w.
Proof.
  intros Hcs Hss. unfold makeRequest.
  destruct (resolveInputs C w reqNum) as [[[w1 [inputs err1]] tr1] |] eqn:Hres;
    [| eauto 6].
  destruct (resolveInputs_worker C w reqNum w1 _ tr1 Hres) as (Hmtd & _).
  destruct err1 as [e1 |]; [eauto 6 |].
  destruct (executeMetadata C _ (metadata (config w1))) as [mdMap [e2 |]];
    cbn [is_nil negb]; [eauto 6 |].
  destruct (len inputs =? 0); [eauto 6 |].
  destruct (selectInput reqNum inputs) as [unaryInput |]; [| eauto 6].
  unfold dispatch. rewrite Hmtd, Hcs, Hss. cbn [andb].
  unfold makeUnaryRequest. eauto 6.
Qed.

Lemma runWorkerLoop_unary_ends (lenv : LoopEnv) (cond : ConditionChecker)
  (stopOnCond : bool) (p : nat) :
  done_ready lenv p = true ->
  forall fuel pass (st : loop_state Message),
    IsClientStreaming (mtd (l_worker st)) = false ->
    IsServerStreaming (mtd (l_worker st)) = false ->
    (pass <= p)%nat ->
    (p - pass < fuel)%nat ->
    exists c st', runWorkerLoop C lenv cond stopOnCond fuel pass st
                  = Some (c, st').
Proof.
  intros Hp. induction fuel as [| fuel IH]; intros pass st Hcs Hss Hle Hf;
    [lia |].
  cbn [runWorkerLoop].
  destruct (done_ready lenv pass) eqn:Hd; [eauto |].
  assert (Hlt : (pass < p)%nat).
  { destruct (Nat.eq_dec pass p) as [-> | Hne]; [congruence | lia]. }
  destruct (cond _ _ _ _).
  - destruct (makeRequest_unary_total (l_worker st)
                (wrap64 (l_reqCounter st + 1))
                (call_env lenv (wrap64 (l_reqCounter st + 1))) fuel Hcs Hss)
      as (w' & c & tr & -> & Hmtd).
    destruct c as [rErr |]; [| eauto].
    apply IH; cbn [l_worker]; try lia; rewrite Hmtd; assumption.
  - destruct stopOnCond; [eauto |].
    apply IH; cbn [l_worker]; try lia; assumption.
Qed.

(** X21.  For a unary method the cancellation always ends the loop: if
    [done] is ready at pass p, [runWorker] has returned (or a request has
    panicked) after at most p + 1 passes, whatever the condition decides
    and whatever the requests return. *)
Theorem runWorker_unary_ends_at_done :
  forall (w : Worker Message) (reqCounter : Z) (lenv : LoopEnv)
         (cond : ConditionChecker) (stopOnCond : bool) (fuel p : nat),
    IsClientStreaming (mtd w) = false ->
    IsServerStreaming (mtd w) = false ->
    done_ready lenv p = true ->
    (p < fuel)%nat ->
    exists c st,
      runWorker C w reqCounter lenv cond stopOnCond fuel = Some (c, st).
Proof.
  intros w reqCounter lenv cond stopOnCond fuel p Hcs Hss Hp Hf.
  unfold runWorker.
  apply (runWorkerLoop_unary_ends lenv cond stopOnCond p Hp);
    cbn [l_worker]; try assumption; lia.
Qed.

End Behaviour.

(** * The further behaviour on concrete runs *)

Lemma getMessages_json_never_caches_witness :
  binary (config (demoWorker false false false "x" "")) = false
  /\ fst (fst (getMessagesSeq demoCollaborators
                 (demoWorker false false false "x" "")
                 [(demoCtd 1, "a"%string); (demoCtd 2, "bc"%string)]))
     = demoWorker false false false "x" "".
Proof.
  split; [reflexivity |].
  exact (getMessages_json_never_caches demoCollaborators
           (demoWorker false false false "x" "")
           [(demoCtd 1, "a"%string); (demoCtd 2, "bc"%string)] eq_refl).
Defined.

Lemma getMessages_error_leaves_worker_witness :
  getMessages strictCollaborators (demoWorker false false true "" "")
    (demoCtd 1) ""
  = (demoWorker false false true "" "",
     (None, Some (errorString "unexpected EOF")),
     [EvCreatePayloadsFromBin ""])
  /\ demoWorker false false true "" "" = demoWorker false false true "" ""
  /\ @None (list nat) = None.
Proof.
  split; [reflexivity |].
  exact (getMessages_error_leaves_worker strictCollaborators
           (demoWorker false false true "" "") _ (demoCtd 1) ""%string
           None (errorString "unexpected EOF") _ eq_refl).
Defined.

Lemma makeRequest_error_means_no_call_witness :
  exists tr,
    makeRequest demoCollaborators (demoWorker false true false "" "") 1
      envOK 5
    = Some (demoWorker false true false "" "", Returned (Some errNoData), tr)
    /\ rpc_events tr = [].
Proof.
  eexists. split; [reflexivity |].
  exact (makeRequest_error_means_no_call demoCollaborators
           (demoWorker false true false "" "") _ 1 envOK 5 errNoData _
           eq_refl).
Defined.

Lemma makeRequest_unary_single_call_witness :
  exists payload tr,
    nth_error [3; 4]%nat (Z.to_nat ((6 - 1) mod 2)) = Some payload
    /\ makeRequest pairCollaborators (demoWorker false false false "abc" "")
         6 envOpenFails 0
       = Some (demoWorker false false false "abc" "", Returned None, tr)
    /\ rpc_events tr
       = [EvInvokeRpc
            (requestContext (demoWorker false false false "abc" "")
               (requestMD (demoWorker false false false "abc" "") []))
            payload
            (callOptions (demoWorker false false false "abc" ""))].
Proof.
  assert (Hn : 1 <= 6 <= max_int64) by (vm_compute; split; discriminate).
  assert (Hl : 1 <= len (Some [3; 4]%nat)) by (vm_compute; discriminate).
  exact (makeRequest_unary_single_call pairCollaborators
           (demoWorker false false false "abc" "")
           (demoWorker false false false "abc" "") 6 envOpenFails 0
           (Some [3; 4]%nat) _ [] eq_refl eq_refl Hn eq_refl Hl eq_refl).
Defined.

Lemma makeRequest_nonpositive_sequence_number_panics_witness :
  min_int64 < 0 <= 0
  /\ Z.rem (0 - 1) (len (Some [3; 4]%nat)) <> 0
  /\ exists tr,
       makeRequest pairCollaborators (demoWorker false false false "abc" "")
         0 envOK 5
       = Some (demoWorker false false false "abc" "", Panicked, tr)
       /\ rpc_events tr = [].
Proof.
  assert (Hn : min_int64 < 0 <= 0)
    by (vm_compute; split; [reflexivity | discriminate]).
  assert (Hl : 1 <= len (Some [3; 4]%nat)) by (vm_compute; discriminate).
  assert (Hr : Z.rem (0 - 1) (len (Some [3; 4]%nat)) <> 0)
    by (vm_compute; discriminate).
  split; [exact Hn |]. split; [exact Hr |].
  exact (makeRequest_nonpositive_sequence_number_panics pairCollaborators
           (demoWorker false false false "abc" "")
           (demoWorker false false false "abc" "") 0 envOK 5
           (Some [3; 4]%nat) _ [] Hn eq_refl Hl Hr eq_refl).
Defined.

Lemma clientStreaming_sends_all_in_order_witness :
  invoke_err envOK = None
  /\ exists tr,
       makeClientStreamingRequest (demoWorker true false false "x" "") envOK
         demoContext (Some [7; 8]%nat) 3
       = Some (Returned None, tr)
       /\ rpc_events tr
          = EvInvokeRpcClientStream demoContext []
            :: map EvSendMsg [7; 8]%nat ++ [EvCloseAndReceive].
Proof.
  assert (Hl : len (Some [7; 8]%nat) <= max_int64)
    by (vm_compute; discriminate).
  split; [reflexivity |].
  refine (clientStreaming_sends_all_in_order
            (demoWorker true false false "x" "") envOK demoContext
            (Some [7; 8]%nat) 3 eq_refl Hl _ _).
  - intros j Hj. reflexivity.
  - cbn. lia.
Defined.

Lemma clientStreaming_stops_at_first_send_error_witness :
  send_err envSendEOF 1 = Some io_EOF
  /\ exists tr,
       makeClientStreamingRequest (demoWorker true false false "x" "")
         envSendEOF demoContext (Some [7; 8; 9]%nat) 2
       = Some (Returned None, tr)
       /\ rpc_events tr
          = EvInvokeRpcClientStream demoContext []
            :: map EvSendMsg (firstn 2 [7; 8; 9]%nat)
               ++ (if is_EOF (Some io_EOF)
                   then [EvCloseAndReceive] else []).
Proof.
  assert (Hl : len (Some [7; 8; 9]%nat) <= max_int64)
    by (vm_compute; discriminate).
  split; [reflexivity |].
  refine (clientStreaming_stops_at_first_send_error
            (demoWorker true false false "x" "") envSendEOF demoContext
            (Some [7; 8; 9]%nat) 2 1 io_EOF eq_refl Hl _ _ eq_refl _).
  - cbn. lia.
  - intros j Hj. destruct j as [| j]; [reflexivity | lia].
  - lia.
Defined.

Lemma clientStreaming_always_returns_nil_witness :
  invoke_err envOpenFails <> None
  /\ exists tr,
       makeClientStreamingRequest (demoWorker true false false "x" "")
         envOpenFails demoContext (Some [7; 8]%nat) 3
       = Some (Returned None, tr)
       /\ (invoke_err envOpenFails <> None ->
           rpc_events tr = [EvInvokeRpcClientStream demoContext []]).
Proof.
  assert (Hl : len (Some [7; 8]%nat) <= max_int64)
    by (vm_compute; discriminate).
  split; [discriminate |].
  refine (clientStreaming_always_returns_nil
            (demoWorker true false false "x" "") envOpenFails demoContext
            (Some [7; 8]%nat) 3 Hl _).
  cbn. lia.
Defined.

Lemma serverStreaming_receives_until_first_error_witness :
  recv_err envRecvFails 0 <> None
  /\ exists tr,
       makeServerStreamingRequest (demoWorker false true false "x" "")
         envRecvFails demoContext 7%nat 1
       = Some (Returned None, tr)
       /\ rpc_events tr
          = [EvInvokeRpcServerStream demoContext 7%nat []; EvRecvMsg].
Proof.
  assert (Hk : recv_err envRecvFails 0 <> None) by discriminate.
  split; [exact Hk |].
  refine (serverStreaming_receives_until_first_error
            (demoWorker false true false "x" "") envRecvFails demoContext
            7%nat 1 0 Hk _ _).
  - intros j Hj. lia.
  - lia.
Defined.

Lemma bidi_empty_input_closes_send_witness :
  invoke_err envOK = None
  /\ len (Some (@nil nat)) = 0
  /\ exists tr,
       makeBidiRequest (demoWorker true true false "x" "") envOK demoContext
         (Some []) 0
       = Some (Returned None, tr)
       /\ rpc_events tr
          = [EvInvokeRpcBidiStream demoContext []; EvCloseSend].
Proof.
  split; [reflexivity |]. split; [reflexivity |].
  exact (bidi_empty_input_closes_send (demoWorker true true false "x" "")
           envOK demoContext (Some []) 0 eq_refl eq_refl).
Defined.

Lemma bidiDoneState_reachable :
  bidi_reachable (demoWorker true true false "x" "") envOK
    (Some [7; 8]%nat) [EvInvokeRpcBidiStream demoContext []] bidiDoneState.
Proof.
  exact (proj1 (bidi_run_reachable (demoWorker true true false "x" "")
                  envOK (Some [7; 8]%nat)
                  [EvInvokeRpcBidiStream demoContext []] 6 0
                  (bidi_init [EvInvokeRpcBidiStream demoContext []])
                  bidiDoneState (reach_init _ _ _ _) eq_refl)).
Defined.

Lemma bidiWaitingState_reachable :
  bidi_reachable (demoWorker true true false "x" "") envOK
    (Some [7; 8]%nat) [EvInvokeRpcBidiStream demoContext []]
    bidiWaitingState.
Proof.
  eapply reach_step with (t := MainThread);
    [eapply reach_step with (t := MainThread);
     [eapply reach_step with (t := MainThread);
      [apply reach_init | reflexivity] | reflexivity] | reflexivity].
Defined.

Lemma bidi_sends_in_input_order_witness :
  len (Some [7; 8]%nat) <= max_int64
  /\ filter is_send_event (b_trace bidiDoneState)
     = map EvSendMsg (firstn (Z.to_nat (b_counter bidiDoneState)) [7; 8]%nat)
  /\ (b_pc bidiDoneState = BidiReturned -> b_err bidiDoneState = None ->
      filter is_send_event (b_trace bidiDoneState)
      = map EvSendMsg [7; 8]%nat).
Proof.
  assert (Hl : len (Some [7; 8]%nat) <= max_int64)
    by (vm_compute; discriminate).
  split; [exact Hl |].
  exact (bidi_sends_in_input_order (demoWorker true true false "x" "") envOK
           demoContext (Some [7; 8]%nat) bidiDoneState Hl
           bidiDoneState_reachable).
Defined.

Lemma bidi_receiver_stops_at_first_error_witness :
  List.length (filter is_recv_event (b_trace bidiDoneState))
  = b_recv_calls bidiDoneState
  /\ (forall i, (S i < b_recv_calls bidiDoneState)%nat ->
                recv_err envOK i = None).
Proof.
  exact (bidi_receiver_stops_at_first_error
           (demoWorker true true false "x" "") envOK demoContext
           (Some [7; 8]%nat) bidiDoneState bidiDoneState_reachable).
Defined.

Lemma bidi_never_deadlocks_witness :
  b_pc bidiWaitingState = AfterLoop
  /\ main_step (demoWorker true true false "x" "") envOK (Some [7; 8]%nat)
       bidiWaitingState = None
  /\ (exists t s',
         thread_step (demoWorker true true false "x" "") envOK
           (Some [7; 8]%nat) t bidiWaitingState = Some s').
Proof.
  split; [reflexivity |]. split; [reflexivity |].
  exact (proj1 (bidi_never_deadlocks (demoWorker true true false "x" "")
                  envOK (Some [7; 8]%nat) _ bidiWaitingState
                  bidiWaitingState_reachable (or_intror eq_refl))).
Defined.

Lemma bidi_returns_under_every_schedule_witness :
  recv_err envSecondSendFails 2 <> None
  /\ exists tr,
       makeBidiRequest (demoWorker true true false "x" "")
         envSecondSendFails demoContext (Some [7; 8; 9]%nat) 8
       = Some (Returned None, tr).
Proof.
  assert (Hl : len (Some [7; 8; 9]%nat) <= max_int64)
    by (vm_compute; discriminate).
  assert (Hk : recv_err envSecondSendFails 2 <> None) by discriminate.
  split; [exact Hk |].
  refine (bidi_returns_under_every_schedule
            (demoWorker true true false "x" "") envSecondSendFails
            demoContext (Some [7; 8; 9]%nat) 2 8 Hl Hk _).
  cbn. lia.
Defined.

Lemma bidi_successful_sends_complete_call_witness :
  invoke_err envOK = None
  /\ recv_err envOK 0 <> None
  /\ exists tr i,
       makeBidiRequest (demoWorker true true false "x" "") envOK demoContext
         (Some [7; 8]%nat) 5
       = Some (Returned None, tr)
       /\ filter is_send_event tr = map EvSendMsg [7; 8]%nat
       /\ In EvCloseSend tr
       /\ List.length (filter is_recv_event tr) = S i
       /\ recv_err envOK i <> None
       /\ (forall j, (j < i)%nat -> recv_err envOK j = None).
Proof.
  assert (Hl : 1 <= len (Some [7; 8]%nat) <= max_int64)
    by (vm_compute; split; discriminate).
  assert (Hk : recv_err envOK 0 <> None) by discriminate.
  split; [reflexivity |]. split; [exact Hk |].
  refine (bidi_successful_sends_complete_call
            (demoWorker true true false "x" "") envOK demoContext
            (Some [7; 8]%nat) 0 5 eq_refl Hl _ Hk _).
  - intros j Hj. reflexivity.
  - cbn. lia.
Defined.

Lemma runWorker_condition_always_gets_nil_witness :
  exists st,
    runWorker demoCollaborators (demoWorker false false false "" "") 0
      (demoLoopEnv 2) condAlways false 5
    = Some (Returned None, st)
    /\ l_err st = Some (multiError [errNoData; errNoData])
    /\ In (EvCond "g0c0" None 1 1) (l_trace st)
    /\ @None error = None.
Proof.
  eexists. split; [vm_compute; reflexivity |].
  split; [reflexivity |].
  assert (Hin : In (@EvCond nat "g0c0" None 1 1)
                  (l_trace
                     {| l_worker := demoWorker false false false "" "";
                        l_reqCounter := 2;
                        l_err := Some (multiError [errNoData; errNoData]);
                        l_rErr := None; l_n := 2;
                        l_trace :=
                          [EvCond "g0c0" None 0 0;
                           EvExecuteData
                             (newCallTemplateData (demoMethod false false)
                                "g0c0" 1) "";
                           EvCreatePayloadsFromJSON "";
                           EvExecuteMetadata
                             (newCallTemplateData (demoMethod false false)
                                "g0c0" 1);
                           EvCancel;
                           EvCond "g0c0" None 1 1;
                           EvExecuteData
                             (newCallTemplateData (demoMethod false false)
                                "g0c0" 2) "";
                           EvCreatePayloadsFromJSON "";
                           EvExecuteMetadata
                             (newCallTemplateData (demoMethod false false)
                                "g0c0" 2);
                           EvCancel] |})).
  { cbn. do 5 right. left. reflexivity. }
  split; [exact Hin |].
  exact (runWorker_condition_always_gets_nil demoCollaborators
           (demoWorker false false false "" "") 0 (demoLoopEnv 2) condAlways
           false 5 (Returned None) _ "g0c0"%string None 1 1 eq_refl Hin).
Defined.

Lemma runWorker_rejecting_condition_witness :
  (forall fuel,
      runWorker demoCollaborators (demoWorker false false false "x" "") 7
        neverDone condNever true (S fuel)
      = Some (Returned None,
              {| l_worker := demoWorker false false false "x" "";
                 l_reqCounter := 7; l_err := None; l_rErr := None;
                 l_n := 0;
                 l_trace := [EvCond "g0c0" None 0 0] |}))
  /\ (forall fuel,
         runWorker demoCollaborators (demoWorker false false false "x" "") 7
           neverDone condNever false fuel = None).
Proof.
  exact (runWorker_rejecting_condition demoCollaborators
           (demoWorker false false false "x" "") 7 neverDone condNever
           (fun _ => eq_refl) (fun _ _ _ _ => eq_refl)).
Defined.

Lemma runWorker_counter_advances_with_requests_witness :
  min_int64 <= 40 <= max_int64
  /\ exists st,
       runWorker demoCollaborators (demoWorker false false false "x" "") 40
         (demoLoopEnv 2) condAlways false 5
       = Some (Returned None, st)
       /\ exists m : nat,
            (m <= 5)%nat
            /\ l_n st = wrap64 (Z.of_nat m)
            /\ l_reqCounter st = wrap64 (40 + Z.of_nat m).
Proof.
  assert (Hc : min_int64 <= 40 <= max_int64)
    by (vm_compute; split; discriminate).
  split; [exact Hc |].
  eexists. split; [vm_compute; reflexivity |].
  exact (runWorker_counter_advances_with_requests demoCollaborators
           (demoWorker false false false "x" "") 40 (demoLoopEnv 2)
           condAlways false 5 (Returned None) _ Hc eq_refl).
Defined.

Lemma runWorker_issues_nothing_after_done_witness :
  done_ready (demoLoopEnv 2) 2 = true
  /\ exists st,
       runWorker demoCollaborators (demoWorker false false false "x" "") 40
         (demoLoopEnv 2) condAlways false 5
       = Some (Returned None, st)
       /\ exists m : nat, (m <= 2)%nat /\ l_n st = wrap64 (Z.of_nat m).
Proof.
  split; [reflexivity |].
  eexists. split; [vm_compute; reflexivity |].
  exact (runWorker_issues_nothing_after_done demoCollaborators
           (demoWorker false false false "x" "") 40 (demoLoopEnv 2)
           condAlways false 5 2 (Returned None) _ eq_refl eq_refl).
Defined.

Lemma makeRequest_touches_cache_only_witness :
  exists w' tr,
    makeRequest demoCollaborators (demoWorker false false true "abc" "") 1
      envOK 5
    = Some (w', Returned None, tr)
    /\ cachedMessages w' = Some [3%nat]
    /\ w' = set_cachedMessages (demoWorker false false true "abc" "")
              (cachedMessages w').
Proof.
  eexists. eexists. split; [vm_compute; reflexivity |].
  split; [reflexivity |].
  exact (proj1 (makeRequest_touches_cache_only demoCollaborators
                  (demoWorker false false true "abc" "") _ 1 envOK 5
                  (Returned None) _ eq_refl)).
Defined.

Lemma runWorker_unary_ends_at_done_witness :
  done_ready (demoLoopEnv 3) 3 = true
  /\ exists c st,
       runWorker demoCollaborators (demoWorker false false false "x" "") 0
         (demoLoopEnv 3) condAlways false 4
       = Some (c, st).
Proof.
  split; [reflexivity |].
  refine (runWorker_unary_ends_at_done demoCollaborators
            (demoWorker false false false "x" "") 0 (demoLoopEnv 3)
            condAlways false 4 3 eq_refl eq_refl eq_refl _).
  lia.
Defined.
